(** * Budibase: the npm plugin ingester and the test request wrapper

    A shallow embedding of

    - [npmUpload] (packages/server/src/api/controllers/plugin/npm.ts), and
    - [TestAPI._requestRaw] (the supertest wrapper of the server tests),

    with the JavaScript values and string primitives both rely on.  External
    collaborators (node-fetch, the WHATWG URL parser, the file system
    utilities, supertest's transport) are oracles gathered in a record; every
    call to one of them is logged as an event, so that "no fetch happened" or
    "four requests were sent" are statements about the event log. *)

From Stdlib Require Import String Ascii List ZArith Bool Arith Lia.
From Stdlib Require Import DecimalString.
From Equations Require Import Equations.
Import ListNotations.
Open Scope string_scope.

Set Warnings "-register-all".

(* ===================================================================== *)
(** * JavaScript strings *)
(* ===================================================================== *)

Module JsString.

(** [s.startsWith(p)] *)
Definition startsWith (s p : string) : bool := String.prefix p s.

(** [s.includes(p)]: [p] occurs at some offset of [s]. *)
Fixpoint includes (s p : string) : bool :=
  String.prefix p s ||
  match s with
  | EmptyString => false
  | String _ rest => includes rest p
  end.

(** [s.endsWith(p)]: the last [length p] characters of [s] are [p]. *)
Definition endsWith (s p : string) : bool :=
  Nat.leb (String.length p) (String.length s) &&
  String.eqb (substring (String.length s - String.length p) (String.length p) s) p.

(** [s.split(sep)] for a one-character separator.  The accumulator [cur]
    is the segment being read; an empty input still yields one (empty)
    segment, like JavaScript's [("").split("/")]. *)
Fixpoint splitAcc (sep : ascii) (cur : string) (s : string) : list string :=
  match s with
  | EmptyString => [cur]
  | String c rest =>
      if Ascii.eqb c sep then cur :: splitAcc sep "" rest
      else splitAcc sep (cur ++ String c "") rest
  end.

Definition split (s : string) (sep : ascii) : list string := splitAcc sep "" s.

(** [arr.slice(n)] for [n >= 0] *)
Definition slice {A} (n : nat) (l : list A) : list A := skipn n l.

(** [arr.join(sep)] *)
Definition join (l : list string) (sep : string) : string := String.concat sep l.

(** Decimal rendering of an integer, [String(n)]. *)
Definition ofZ (n : Z) : string := NilZero.string_of_int (Z.to_int n).
Definition ofNat (n : nat) : string := NilZero.string_of_uint (Nat.to_uint n).

End JsString.

(* ===================================================================== *)
(** * JavaScript values as produced by [JSON.parse] *)
(* ===================================================================== *)

Module Js.

(** A parsed JSON document, plus [undefined], which property access
    produces.  Numbers are the integers (the only numbers whose rendering
    as a property key is modelled); an object is its list of own
    properties in [Object.entries] order. *)
Inductive Val : Type :=
| Undefined
| Null
| Bool (b : bool)
| Num (n : Z)
| Str (s : string)
| Arr (items : list Val)
| Obj (props : list (string * Val)).

(** [!!v] *)
Definition truthy (v : Val) : bool :=
  match v with
  | Undefined | Null => false
  | Bool b => b
  | Num n => negb (n =? 0)%Z
  | Str s => negb (String.eqb s "")
  | Arr _ | Obj _ => true
  end.

Definition nullish (v : Val) : bool :=
  match v with
  | Undefined | Null => true
  | _ => false
  end.

(** [String(v)], the conversion applied to a computed property key. *)
Fixpoint toString (v : Val) : string :=
  match v with
  | Undefined => "undefined"
  | Null => "null"
  | Bool true => "true"
  | Bool false => "false"
  | Num n => JsString.ofZ n
  | Str s => s
  | Arr items =>
      JsString.join
        (map (fun x => if nullish x then "" else toString x) items) ","
  | Obj _ => "[object Object]"
  end.

(** First binding of [k] among the own properties. *)
Fixpoint assoc {A} (k : string) (l : list (string * A)) : option A :=
  match l with
  | [] => None
  | (k', v) :: rest => if String.eqb k' k then Some v else assoc k rest
  end.

(** Element whose index renders as [k], counting from [i]. *)
Fixpoint atIndexKey {A} (k : string) (i : nat) (l : list A) : option A :=
  match l with
  | [] => None
  | x :: rest =>
      if String.eqb (JsString.ofNat i) k then Some x
      else atIndexKey k (S i) rest
  end.

Fixpoint chars (s : string) : list string :=
  match s with
  | EmptyString => []
  | String c rest => String c "" :: chars rest
  end.

(** The value of [v[k]] for a [v] that is neither [null] nor [undefined].
    Only own properties are looked up: the inherited ones
    ([constructor], [toString], ...) are functions or prototype objects
    with no [dist], [tarball] or [latest] of their own, so that reading
    them or reading [undefined] gives the same result in every chain
    below. *)
Definition ownProp (v : Val) (k : string) : Val :=
  match v with
  | Obj props =>
      match assoc k props with Some x => x | None => Undefined end
  | Arr items =>
      if String.eqb k "length" then Num (Z.of_nat (List.length items))
      else match atIndexKey k 0 items with Some x => x | None => Undefined end
  | Str s =>
      if String.eqb k "length" then Num (Z.of_nat (String.length s))
      else match atIndexKey k 0 (chars s) with
           | Some c => Str c
           | None => Undefined
           end
  | _ => Undefined
  end.

(** [v.k] and [v[k]]: a TypeError (here [None]) on [null] and
    [undefined]. *)
Definition get (v : Val) (k : string) : option Val :=
  if nullish v then None else Some (ownProp v k).

(** [v?.k] and [v?.[k]] *)
Definition getOpt (v : Val) (k : string) : Val :=
  if nullish v then Undefined else ownProp v k.

End Js.

(* ===================================================================== *)
(** * Thrown values and effectful computations *)
(* ===================================================================== *)

(** A value thrown (or a promise rejected) by a collaborator: its [code]
    property, if it has one, and its rendering [String(e)]. *)
Record Foreign : Type := mkForeign {
  code : option string;
  rendering : string
}.

(** What a call can throw.  [Raised] is [throw new Error("...")] with a
    literal message, written in the modelled function itself; [Wrapped] is
    [throw new Error(err)] around a caught value; [TypeError] is the run-time
    error of reading a property of [null] or [undefined]; [Rethrown] is a
    collaborator's failure passing through. *)
Inductive Thrown : Type :=
| Raised (message : string)
| Wrapped (cause : Foreign)
| TypeError (message : string)
| Rethrown (cause : Foreign).

Definition message (t : Thrown) : string :=
  match t with
  | Raised m => m
  | Wrapped c => rendering c
  | TypeError m => m
  | Rethrown c => rendering c
  end.

Inductive Completion (A : Type) : Type :=
| Returns (a : A)
| Throws (t : Thrown).
Arguments Returns {A} a.
Arguments Throws {A} t.

(** A computation is the log of the effects it performed, in order, and how
    it completed. *)
Module Eff.
Section WithEvent.
Variable E : Type.

Definition t (A : Type) : Type := (list E * Completion A)%type.

Definition ret {A} (a : A) : t A := ([], Returns a).
Definition throw {A} (e : Thrown) : t A := ([], Throws e).
Definition emit (e : E) : t unit := ([e], Returns tt).

Definition bind {A B} (m : t A) (f : A -> t B) : t B :=
  match m with
  | (log, Returns a) => let (log', r) := f a in ((log ++ log')%list, r)
  | (log, Throws e) => (log, Throws e)
  end.

(** [v.k] on a parsed document. *)
Definition prop (v : Js.Val) (k : string) : t Js.Val :=
  match Js.get v k with
  | Some x => ret x
  | None =>
      throw (TypeError ("Cannot read properties of " ++ Js.toString v
                        ++ " (reading '" ++ k ++ "')"))
  end.

(** [await p] on a promise settled by a collaborator. *)
Definition await {A} (r : Foreign + A) : t A :=
  match r with
  | inl e => throw (Rethrown e)
  | inr a => ret a
  end.

(** [try { m } catch (err) { throw new Error(err) }] where [m] only calls
    collaborators. *)
Definition wrapErrors {A} (m : t A) : t A :=
  match m with
  | (log, Throws (Rethrown e)) => (log, Throws (Wrapped e))
  | other => other
  end.
End WithEvent.
Arguments ret {E A} a.
Arguments throw {E A} e.
Arguments emit {E} e.
Arguments bind {E A B} m f.
Arguments prop {E} v k.
Arguments await {E A} r.
Arguments wrapErrors {E A} m.
End Eff.

Declare Scope eff_scope.
Delimit Scope eff_scope with eff.
Notation "x <- m ;; k" := (Eff.bind m (fun x => k))
  (at level 61, m at next level, right associativity) : eff_scope.
Notation "m ;;; k" := (Eff.bind m (fun _ => k))
  (at level 61, right associativity) : eff_scope.

(* ===================================================================== *)
(** * The plugin ingester: api/controllers/plugin/npm.ts *)
(* ===================================================================== *)

Module Npm.
Import JsString.
Local Open Scope eff_scope.

Definition Headers : Type := list (string * string).

(** What [await fetch(url)] resolves to: the status and how
    [response.json()] settles. *)
Record Response : Type := mkResponse {
  status : Z;
  json : Foreign + Js.Val
}.

(** The collaborators of [npmUpload]. *)
Record World : Type := mkWorld {
  (** [new URL(path, base).toString()] *)
  newURL : string -> string -> Foreign + string;
  (** node-fetch *)
  fetch : string -> Foreign + Response;
  (** ./utils *)
  downloadUnzipTarball : Js.Val -> Js.Val -> Headers -> Foreign + string;
  (** utilities/fileSystem *)
  findFileRec : string -> string -> Foreign + option string;
  extractTarball : string -> string -> Foreign + unit;
  deleteFolderFileSystem : string -> Foreign + unit;
  getPluginMetadata : string -> Foreign + Js.Val;
  (** path.join *)
  pathJoin : string -> string -> string
}.

(** Calls that leave the process: network and file system. *)
Inductive Event : Type :=
| Fetch (url : string)
| ReadJson
| DownloadUnzipTarball (url name : Js.Val) (headers : Headers)
| FindFileRec (path ext : string)
| ExtractTarball (file path : string)
| DeleteFolderFileSystem (path : string)
| GetPluginMetadata (path : string).

Definition isFetch (e : Event) : bool :=
  match e with Fetch _ => true | _ => false end.
Definition isDownload (e : Event) : bool :=
  match e with DownloadUnzipTarball _ _ _ => true | _ => false end.

Definition ALLOWED_BASE_URLS : list string :=
  [ "https://www.npmjs.com/package/";
    "https://registry.npmjs.org/" ].

Definition isValidBaseUrl (url : string) : bool :=
  existsb (fun baseUrl => startsWith url baseUrl) ALLOWED_BASE_URLS.

Definition allowedPaths : list string := ["/"; "/-/"].

(** ["/" + url.split("/").slice(4).join("/")] *)
Definition registryPath (url : string) : string :=
  "/" ++ join (slice 4 (split url "/"%char)) "/".

Definition isAllowedPath (path : string) : bool :=
  existsb (fun allowedPath => startsWith path allowedPath) allowedPaths.

Section WithWorld.
Variable w : World.

(** Lines 26-44, the body of [if (!npmTarballUrl.includes(".tgz"))]:
    the new values of [npmTarballUrl] and [pluginName]. *)
Definition resolve (url : string) : Eff.t Event (Js.Val * Js.Val) :=
  let path := registryPath url in
  if negb (isAllowedPath path) then
    Eff.throw (Raised "Invalid NPM package path")
  else
    npmPackageURl <-
      Eff.await (newURL w path "https://registry.npmjs.org/") ;;
    Eff.emit (Fetch npmPackageURl) ;;;
    response <- Eff.await (fetch w npmPackageURl) ;;
    if negb (status response =? 200)%Z then
      Eff.throw (Raised "NPM Package not found")
    else
      Eff.emit ReadJson ;;;
      npmDetails <- Eff.await (json response) ;;
      pluginName <- Eff.prop npmDetails "name" ;;
      distTags <- Eff.prop npmDetails "dist-tags" ;;
      npmVersion <- Eff.prop distTags "latest" ;;
      let npmTarballUrl :=
        Js.getOpt
          (Js.getOpt
             (Js.getOpt (Js.getOpt npmDetails "versions")
                        (Js.toString npmVersion))
             "dist")
          "tarball" in
      if negb (Js.truthy npmTarballUrl) then
        Eff.throw (Raised "NPM tarball url not found")
      else
        Eff.ret (npmTarballUrl, pluginName).

(** Lines 47-60: download, locate the inner archive, unpack, read the
    metadata. *)
Definition unpack (npmTarballUrl pluginName : Js.Val) (headers : Headers)
  : Eff.t Event Js.Val :=
  Eff.emit (DownloadUnzipTarball npmTarballUrl pluginName headers) ;;;
  path <- Eff.await (downloadUnzipTarball w npmTarballUrl pluginName headers) ;;
  Eff.emit (FindFileRec path ".tar.gz") ;;;
  tarballPluginFile <- Eff.await (findFileRec w path ".tar.gz") ;;
  match tarballPluginFile with
  | None | Some "" => Eff.throw (Raised "Tarball plugin file not found")
  | Some file =>
      Eff.wrapErrors
        (Eff.emit (ExtractTarball file path) ;;;
         Eff.await (extractTarball w file path) ;;;
         let package := pathJoin w path "package" in
         Eff.emit (DeleteFolderFileSystem package) ;;;
         Eff.await (deleteFolderFileSystem w package)) ;;;
      Eff.emit (GetPluginMetadata path) ;;;
      Eff.await (getPluginMetadata w path)
  end.

Definition npmUpload (url name : string) (headers : Headers)
  : Eff.t Event Js.Val :=
  if negb (isValidBaseUrl url) then
    Eff.throw (Raised "The plugin origin must be from NPM")
  else
    target <-
      (if negb (includes url ".tgz") then resolve url
       else Eff.ret (Js.Str url, Js.Str name)) ;;
    unpack (fst target) (snd target) headers.

End WithWorld.
End Npm.

(* ===================================================================== *)
(** * The test request wrapper: [TestAPI._requestRaw] *)
(* ===================================================================== *)

Module TestApi.
Import JsString.
Local Open Scope eff_scope.

Inductive Method : Type := GET | POST | PUT | PATCH | DELETE.

(** [Record<string, string | string[] | undefined>] *)
Inductive HeaderValue : Type :=
| NoValue
| One (v : string)
| Many (vs : list string).

Definition Headers : Type := list (string * HeaderValue).

(** A value of [expectations.headers]: declared [string | RegExp], but the
    wrapper itself tests for [undefined]. *)
Inductive Expected : Type :=
| ExpUndefined
| ExpString (s : string)
| ExpRegExp (source : string).

Definition truthyExpected (e : Expected) : bool :=
  match e with
  | ExpUndefined => false
  | ExpString s => negb (String.eqb s "")
  | ExpRegExp _ => true
  end.

Record Expectations : Type := mkExpectations {
  exp_status : option Z;
  exp_headers : option (list (string * Expected));
  exp_headersNotPresent : option (list string);
  exp_body : option Js.Val
}.

(** [Buffer | ReadStream | string] *)
Inductive FileData : Type :=
| Buffer (bytes : string)
| ReadStream (path : string)
| FilePath (path : string).

(** A value of [opts.files]: [undefined], a bare file, or an
    [AttachedFile] (an object with own properties [name] and [file]). *)
Inductive FileEntry : Type :=
| NoFile
| Bare (file : FileData)
| AttachedFile (name : string) (file : FileData).

Record RequestOpts : Type := mkOpts {
  headers : option Headers;
  query : option (list (string * option string));
  body : option Js.Val;
  fields : option (list (string * Js.Val));
  files : option (list (string * FileEntry));
  expectations : option Expectations;
  publicUser : option bool;
  useProdApp : option bool
}.

Definition noOpts : RequestOpts :=
  mkOpts None None None None None None None None.

(** The supertest [Test] object as the builder calls leave it. *)
Record Request : Type := mkRequest {
  req_method : Method;
  req_url : string;
  req_set : list Headers;
  req_send : option Js.Val;
  req_field : list (string * Js.Val);
  req_attach : list (string * option FileData * option string);
  req_expect : list (string * Expected)
}.

Record Response : Type := mkResponse {
  status : Z;
  resp_headers : list (string * string);
  resp_body : Js.Val
}.

(** The collaborators, each indexed by the attempt that calls it:
    [this.getHeaders(opts, extras)] and the transport behind [await req]. *)
Record World : Type := mkWorld {
  getHeaders : nat -> option RequestOpts -> Headers -> Foreign + Headers;
  transport : nat -> Request -> Foreign + Response
}.

Inductive Event : Type :=
| GetHeaders (attempt : nat)
| Send (req : Request).

Definition sent (log : list Event) : list Request :=
  flat_map (fun e => match e with Send r => [r] | _ => [] end) log.

(** ** Lines 97-102: the default [Content-Type] expectation *)

(** [obj[k] = v] on an object whose key [k] is not an array index: an
    existing property keeps its place, a new one goes last. *)
Fixpoint setProp {A} (k : string) (v : A) (l : list (string * A))
  : list (string * A) :=
  match l with
  | [] => [(k, v)]
  | (k', v') :: rest =>
      if String.eqb k' k then (k, v) :: rest
      else (k', v') :: setProp k v rest
  end.

Definition expectedStatus (expectations : option Expectations) : Z :=
  match expectations with
  | Some e => match exp_status e with Some s => s | None => 200%Z end
  | None => 200%Z
  end.

Definition jsonContentType : Expected := ExpRegExp "^application\/json".

(** [expectHeaders] is [expectations.headers] itself when the caller gave
    one, so the assignment of line 101 is an update of the caller's object
    and is seen by the loop of line 139 and by a retry; when the caller gave
    none, a fresh [{}] is updated and dropped. *)
Definition defaultContentType (e : Expectations) : Expectations :=
  match exp_headers e with
  | None => e
  | Some expectHeaders =>
      let missing :=
        match Js.assoc "Content-Type" expectHeaders with
        | Some v => negb (truthyExpected v)
        | None => true
        end in
      if negb (expectedStatus (Some e) =? 204)%Z && missing then
        mkExpectations (exp_status e)
          (Some (setProp "Content-Type" jsonContentType expectHeaders))
          (exp_headersNotPresent e) (exp_body e)
      else e
  end.

(** The caller's [opts] after lines 97-102. *)
Definition afterDefaults (opts : option RequestOpts) : option RequestOpts :=
  match opts with
  | None => None
  | Some o =>
      Some (mkOpts (headers o) (query o) (body o) (fields o) (files o)
              (option_map defaultContentType (expectations o))
              (publicUser o) (useProdApp o))
  end.

(** ** Lines 104-112: the query string *)

(** [if (value)] for a [string | undefined] *)
Definition truthyParam (value : option string) : bool :=
  match value with
  | Some s => negb (String.eqb s "")
  | None => false
  end.

(** The loop of lines 105-109, pushing onto [queryParams]. *)
Fixpoint pushParams (queryParams : list string)
    (entries : list (string * option string)) : list string :=
  match entries with
  | [] => queryParams
  | (key, value) :: rest =>
      match value with
      | Some v =>
          if truthyParam value
          then pushParams (queryParams ++ [(key ++ "=" ++ v)%string])%list rest
          else pushParams queryParams rest
      | None => pushParams queryParams rest
      end
  end.

Definition queryOf (opts : option RequestOpts) : list (string * option string) :=
  match opts with
  | Some o => match query o with Some q => q | None => [] end
  | None => []
  end.

(** The value of [url] after line 112. *)
Definition withQuery (url : string) (query : list (string * option string))
  : string :=
  let queryParams := pushParams [] query in
  match queryParams with
  | [] => url
  | _ :: _ => url ++ "?" ++ join queryParams "&"
  end.

(** ** Lines 114-147: building the request *)

Definition isAttachedFile (f : FileEntry) : bool :=
  match f with AttachedFile _ _ => true | _ => false end.

(** The loop of lines 131-137; the first case is the one in which
    [isAttachedFile] holds. *)
Definition attach (entry : string * FileEntry)
  : string * option FileData * option string :=
  match entry with
  | (key, AttachedFile name file) => (key, Some file, Some name)
  | (key, Bare file) => (key, Some file, None)
  | (key, NoFile) => (key, None, None)
  end.

Definition dquote : string := String (ascii_of_nat 34) "".

Definition undefinedHeaderMessage (key : string) : string :=
  "Got an undefined expected value for header " ++ dquote ++ key ++ dquote
  ++ ", if you want to check for the absence of a header, use headersNotPresent".

(** The loop of lines 139-146. *)
Fixpoint expectAll (req : Request) (entries : list (string * Expected))
  : Eff.t Event Request :=
  match entries with
  | [] => Eff.ret req
  | (key, value) :: rest =>
      match value with
      | ExpUndefined => Eff.throw (Raised (undefinedHeaderMessage key))
      | _ =>
          expectAll
            (mkRequest (req_method req) (req_url req) (req_set req)
               (req_send req) (req_field req) (req_attach req)
               (req_expect req ++ [(key, value)])%list)
            rest
      end
  end.

Definition stacktraceHeader : Headers :=
  [("x-budibase-include-stacktrace", One "true")].

(** Lines 115-137: the request with its headers, body, fields and
    attachments, before the expectations are declared. *)
Definition initialRequest (method : Method) (url : string) (o : RequestOpts)
    (auth : Headers) : Request :=
  let headers := match headers o with Some h => h | None => [] end in
  let fields := match fields o with Some f => f | None => [] end in
  let files := match files o with Some f => f | None => [] end in
  let body :=
    match body o with
    | Some b => if Js.truthy b then Some b else None
    | None => None
    end in
  mkRequest method url [auth; headers] body fields (map attach files) [].

(** The entries the loop of line 139 runs over; none when
    [expectations?.headers] is missing and line 138 skips the loop. *)
Definition declaredHeaders (o : RequestOpts) : list (string * Expected) :=
  match expectations o with
  | Some e => match exp_headers e with Some hs => hs | None => [] end
  | None => []
  end.

Section WithWorld.
Variable w : World.

(** Lines 89-147 of one invocation; [opts] is the caller's object after
    the defaults of lines 97-102. *)
Definition build (method : Method) (url : string)
    (opts : option RequestOpts) (attempt : nat) : Eff.t Event Request :=
  let o := match opts with Some o => o | None => noOpts end in
  let url := withQuery url (queryOf opts) in
  Eff.emit (GetHeaders attempt) ;;;
  auth <- Eff.await (getHeaders w attempt opts stacktraceHeader) ;;
  expectAll (initialRequest method url o auth) (declaredHeaders o).

Definition isConnectionReset (e : Foreign) : bool :=
  match code e with
  | Some c => String.eqb c "ECONNRESET"
  | None => false
  end.

Definition inspect {A} (a : A) : {b : A | a = b} := exist _ a eq_refl.

(** [_requestRaw(method, url, opts, attempt)].  The retry of line 161
    receives the local [url], which line 111 has already extended, and
    the same [opts] object. *)
Equations? _requestRaw (method : Method) (url : string)
    (opts : option RequestOpts) (attempt : nat)
  : Eff.t Event Response by wf (3 - attempt) lt :=
  _requestRaw method url opts attempt
    with build method url (afterDefaults opts) attempt := {
    | (log, Throws e) := (log, Throws e);
    | (log, Returns req) with transport w attempt req := {
      | inr resp := ((log ++ [Send req])%list, Returns resp);
      | inl e with isConnectionReset e := {
        | false := ((log ++ [Send req])%list, Throws (Rethrown e));
        | true with inspect (Nat.ltb 2 attempt) := {
          | exist _ true _ :=
              ((log ++ [Send req])%list, Throws (Rethrown e));
          | exist _ false _ :=
              Eff.bind ((log ++ [Send req])%list, Returns tt)
                (fun _ =>
                   _requestRaw method
                     (withQuery url (queryOf opts))
                     (afterDefaults opts) (attempt + 1)) } } } }.
Proof.
  apply Nat.ltb_ge in e0.
  destruct attempt as [|[|[|n]]]; simpl; lia.
Qed.

End WithWorld.

(** ** The query string as the specification words it

    The pairs whose value is truthy, in entry order, each rendered
    [key=value], joined with [&]; the result goes after the URL and a [?]
    when there is at least one such pair, and the URL stays as it is when
    there is none. *)

Definition truthyPair (pair : string * option string) : bool :=
  truthyParam (snd pair).

Definition renderPair (pair : string * option string) : string :=
  fst pair ++ "=" ++ match snd pair with Some v => v | None => "undefined" end.

Definition queryUrlSpec (url : string) (query : list (string * option string))
  : string :=
  if existsb truthyPair query
  then url ++ "?" ++ join (map renderPair (filter truthyPair query)) "&"
  else url.

End TestApi.

(* ===================================================================== *)
(** * Concrete collaborators *)
(* ===================================================================== *)

Module Scenario.

(** A registry that answers every request with the given response, and a
    file system on which every step of the unpacking succeeds. *)
Definition registry (answer : Foreign + Npm.Response) : Npm.World :=
  Npm.mkWorld
    (fun path _ => inr ("https://registry.npmjs.org" ++ path))
    (fun _ => answer)
    (fun _ _ _ => inr "/tmp/plugin")
    (fun path _ => inr (Some (path ++ "/plugin.tar.gz")))
    (fun _ _ => inr tt)
    (fun _ => inr tt)
    (fun _ => inr (Js.Obj [("name", Js.Str "plugin")]))
    (fun a b => a ++ "/" ++ b).

Definition notFound : Foreign + Npm.Response :=
  inr (Npm.mkResponse 404 (inr (Js.Obj [("error", Js.Str "Not found")]))).

(** The document served at the registry root: valid JSON, status 200, and
    no [dist-tags]. *)
Definition registryRoot : Foreign + Npm.Response :=
  inr (Npm.mkResponse 200
         (inr (Js.Obj [("db_name", Js.Str "registry");
                       ("engine", Js.Str "couch_bt_engine")]))).

(** A package document with a [dist-tags] object but no [latest] tag. *)
Definition untagged : Foreign + Npm.Response :=
  inr (Npm.mkResponse 200
         (inr (Js.Obj [("name", Js.Str "plugin");
                       ("dist-tags", Js.Obj []);
                       ("versions", Js.Obj [])]))).

Definition connReset : Foreign :=
  mkForeign (Some "ECONNRESET") "Error: socket hang up".

Definition ok : TestApi.Response := TestApi.mkResponse 200 [] Js.Null.

(** A transport on which every attempt is reset. *)
Definition alwaysReset : TestApi.World :=
  TestApi.mkWorld (fun _ _ _ => inr []) (fun _ _ => inl connReset).

(** A transport that resets the first attempt only. *)
Definition resetOnce : TestApi.World :=
  TestApi.mkWorld (fun _ _ _ => inr [])
    (fun attempt _ => match attempt with 0 => inl connReset | _ => inr ok end).

Definition reliable : TestApi.World :=
  TestApi.mkWorld (fun _ _ _ => inr []) (fun _ _ => inr ok).

Definition withQueryOpts (q : list (string * option string))
  : option TestApi.RequestOpts :=
  Some (TestApi.mkOpts None (Some q) None None None None None None).

Definition withExpectedHeaders (status : option Z)
    (hs : list (string * TestApi.Expected)) : TestApi.RequestOpts :=
  TestApi.mkOpts None None None None None
    (Some (TestApi.mkExpectations status (Some hs) None None)) None None.

End Scenario.

(* ===================================================================== *)
(** * The ingester without the path test

    The copy of [npmUpload] kept beside the builder's permission-store test:
    the same function, with lines 26-30 of npm.ts reduced to the
    construction of the URL. *)
(* ===================================================================== *)

Module NpmPrevious.
Import JsString Npm.
Local Open Scope eff_scope.

Section WithWorld.
Variable w : World.

(** The body of [if (!npmTarballUrl.includes(".tgz"))]. *)
Definition resolve (url : string) : Eff.t Event (Js.Val * Js.Val) :=
  npmPackageURl <-
    Eff.await (newURL w ("/" ++ join (slice 4 (split url "/"%char)) "/")
                 "https://registry.npmjs.org/") ;;
  Eff.emit (Fetch npmPackageURl) ;;;
  response <- Eff.await (fetch w npmPackageURl) ;;
  if negb (status response =? 200)%Z then
    Eff.throw (Raised "NPM Package not found")
  else
    Eff.emit ReadJson ;;;
    npmDetails <- Eff.await (json response) ;;
    pluginName <- Eff.prop npmDetails "name" ;;
    distTags <- Eff.prop npmDetails "dist-tags" ;;
    npmVersion <- Eff.prop distTags "latest" ;;
    let npmTarballUrl :=
      Js.getOpt
        (Js.getOpt
           (Js.getOpt (Js.getOpt npmDetails "versions")
                      (Js.toString npmVersion))
           "dist")
        "tarball" in
    if negb (Js.truthy npmTarballUrl) then
      Eff.throw (Raised "NPM tarball url not found")
    else
      Eff.ret (npmTarballUrl, pluginName).

Definition npmUpload (url name : string) (headers : Headers)
  : Eff.t Event Js.Val :=
  if negb (existsb (fun baseUrl => startsWith url baseUrl) ALLOWED_BASE_URLS)
  then Eff.throw (Raised "The plugin origin must be from NPM")
  else
    target <-
      (if negb (includes url ".tgz") then resolve url
       else Eff.ret (Js.Str url, Js.Str name)) ;;
    unpack w (fst target) (snd target) headers.

End WithWorld.
End NpmPrevious.

(* ===================================================================== *)
(** * The test request wrapper: headers, response check and verbs *)
(* ===================================================================== *)

Module TestApiClient.
Import JsString TestApi.
Local Open Scope eff_scope.

(** The two classes of the file: [TestAPI] and its subclass [PublicAPI],
    which overrides [prefix], [getHeaders] and [_checkResponse]. *)
Inductive Class : Type := TestAPI | PublicAPI.

Definition prefix (c : Class) : string :=
  match c with
  | TestAPI => ""
  | PublicAPI => "/api/public/v1"
  end.

(** The methods of [TestConfiguration] the wrapper calls, each indexed by
    the attempt that calls it. *)
Record Config : Type := mkConfig {
  (** [publicHeaders({ prodApp, extras })] *)
  publicHeaders : nat -> option bool -> option Headers -> Foreign + Headers;
  (** [defaultHeaders(extras, prodApp)] *)
  defaultHeaders : nat -> option Headers -> option bool -> Foreign + Headers;
  generateApiKey : nat -> Foreign + string;
  tenantHost : nat -> Foreign + string;
  getAppId : nat -> Foreign + string
}.

(** [{ ...base, ...extras }]: the properties of [extras] are assigned in
    their order onto the literal. *)
Definition spread (base : Headers) (extras : option Headers) : Headers :=
  match extras with
  | Some more =>
      fold_left (fun acc entry => setProp (fst entry) (snd entry) acc) more base
  | None => base
  end.

Definition truthyFlag (flag : option bool) : bool :=
  match flag with Some b => b | None => false end.

(** [getHeaders(opts, extras)], lines 168-177 and 249-264. *)
Definition getHeaders (c : Class) (cfg : Config) (attempt : nat)
    (opts : option RequestOpts) (extras : option Headers)
  : Foreign + Headers :=
  match c with
  | TestAPI =>
      let publicUser := match opts with Some o => publicUser o | None => None end in
      let useProdApp := match opts with Some o => useProdApp o | None => None end in
      if truthyFlag publicUser
      then publicHeaders cfg attempt useProdApp extras
      else defaultHeaders cfg attempt extras useProdApp
  | PublicAPI =>
      match generateApiKey cfg attempt with
      | inl e => inl e
      | inr apiKey =>
          match tenantHost cfg attempt with
          | inl e => inl e
          | inr host =>
              match getAppId cfg attempt with
              | inl e => inl e
              | inr appId =>
                  inr (spread
                         [ ("Accept", One "application/json");
                           ("Host", One host);
                           ("x-budibase-api-key", One apiKey);
                           ("x-budibase-app-id", One appId) ]
                         extras)
              end
          end
      end
  end.

(** The collaborators of [_requestRaw] for an object of class [c]. *)
Definition world (c : Class) (cfg : Config)
    (transport : nat -> Request -> Foreign + Response) : World :=
  mkWorld (fun attempt opts extras => getHeaders c cfg attempt opts (Some extras))
          transport.

(** The library calls of [_checkResponse]: [JSON.stringify(v, null, 2)] and
    the two jest matchers, which answer with the assertion error they
    throw. *)
Record Matchers : Type := mkMatchers {
  stringify : Js.Val -> string;
  toMatchObject : Js.Val -> Js.Val -> option Foreign;
  toSatisfyApiSpec : Response -> option Foreign
}.

Definition newline : ascii := ascii_of_nat 10.

(** The vertical bar that starts every quoted line (U+23D0, in UTF-8). *)
Definition bar : string :=
  String (ascii_of_nat 226) (String (ascii_of_nat 143) (String (ascii_of_nat 144) "")).

(** [for (const line of lines) message += `\n| ${line}`] *)
Definition appendLines (message : string) (lines : list string) : string :=
  fold_left
    (fun message line => message ++ String newline "" ++ bar ++ " " ++ line)
    lines message.

(** [delete v[k]] for a key that is not an array index. *)
Definition deleteProp (k : string) (v : Js.Val) : Js.Val :=
  match v with
  | Js.Obj props =>
      Js.Obj (filter (fun entry => negb (String.eqb (fst entry) k)) props)
  | _ => v
  end.

Definition statusMessage (expected got : Z) : string :=
  "Expected status " ++ ofZ expected ++ " but got " ++ ofZ got.

(** Lines 183-214, the body of [if (response.status !== status)].  Lines
    211 and 213 throw an error with the same message; the [cause] of line
    211 is not part of the thrown values modelled here. *)
Definition statusFailure (m : Matchers) (status : Z) (response : Response)
  : Eff.t Event Response :=
  let message := statusMessage status (TestApi.status response) in
  stack <- Eff.prop (resp_body response) "stack" ;;
  let body := deleteProp "stack" (resp_body response) in
  let message :=
    if Js.truthy body then
      appendLines (message ++ String newline (String newline "Body:"))
        (split (stringify m body) newline)
    else message in
  if Js.truthy stack then
    match stack with
    | Js.Str trace =>
        Eff.throw
          (Raised
             (appendLines
                (message ++ String newline (String newline "Stack from request handler:"))
                (split trace newline)))
    | _ => Eff.throw (TypeError "stack.split is not a function")
    end
  else Eff.throw (Raised message).

Definition presentHeaderMessage (header value : string) : string :=
  "Expected header " ++ header ++ " not to be present, found value "
  ++ dquote ++ value ++ dquote.

(** The loop of lines 218-224. *)
Fixpoint checkAbsent (headers : list (string * string)) (names : list string)
  : Eff.t Event unit :=
  match names with
  | [] => Eff.ret tt
  | header :: rest =>
      match Js.assoc header headers with
      | Some value =>
          if negb (String.eqb value "")
          then Eff.throw (Raised (presentHeaderMessage header value))
          else checkAbsent headers rest
      | None => checkAbsent headers rest
      end
  end.

(** [TestAPI._checkResponse], lines 179-232. *)
Definition _checkResponse (m : Matchers) (response : Response)
    (expectations : option Expectations) : Eff.t Event Response :=
  let status := expectedStatus expectations in
  if negb (TestApi.status response =? status)%Z then
    statusFailure m status response
  else
    checkAbsent (resp_headers response)
      match expectations with
      | Some e =>
          match exp_headersNotPresent e with Some names => names | None => [] end
      | None => []
      end ;;;
    match expectations with
    | Some e =>
        match exp_body e with
        | Some expected =>
            if Js.truthy expected then
              match toMatchObject m (resp_body response) expected with
              | Some failure => Eff.throw (Rethrown failure)
              | None => Eff.ret response
              end
            else Eff.ret response
        | None => Eff.ret response
        end
    | None => Eff.ret response
    end.

(** [PublicAPI._checkResponse], lines 266-274. *)
Definition PublicAPI_checkResponse (m : Matchers) (response : Response)
    (expectations : option Expectations) : Eff.t Event Response :=
  checked <- _checkResponse m response expectations ;;
  if (200 <=? TestApi.status checked)%Z && (TestApi.status checked <? 300)%Z
  then
    match toSatisfyApiSpec m checked with
    | Some failure => Eff.throw (Rethrown failure)
    | None => Eff.ret checked
    end
  else Eff.ret checked.

Definition checkResponse (c : Class) :=
  match c with
  | TestAPI => _checkResponse
  | PublicAPI => PublicAPI_checkResponse
  end.

Definition expectationsOf (opts : option RequestOpts) : option Expectations :=
  match opts with Some o => expectations o | None => None end.

(** [_request(method, url, opts)], lines 234-243; [opts?.expectations] is
    read after [_requestRaw] has filled in its defaults. *)
Definition _request (c : Class) (w : World) (m : Matchers) (method : Method)
    (url : string) (opts : option RequestOpts) : Eff.t Event Js.Val :=
  response <- _requestRaw w method url opts 0 ;;
  checked <- checkResponse c m response (expectationsOf (afterDefaults opts)) ;;
  Eff.ret (resp_body checked).

(** Lines 60-81. *)
Definition _get c w m (url : string) opts :=
  _request c w m GET (prefix c ++ url) opts.
Definition _post c w m (url : string) opts :=
  _request c w m POST (prefix c ++ url) opts.
Definition _put c w m (url : string) opts :=
  _request c w m PUT (prefix c ++ url) opts.
Definition _patch c w m (url : string) opts :=
  _request c w m PATCH (prefix c ++ url) opts.
Definition _delete c w m (url : string) opts :=
  _request c w m DELETE (prefix c ++ url) opts.

End TestApiClient.

(* ===================================================================== *)
(** * The request a call sends, in closed form *)
(* ===================================================================== *)

Module TestApiShape.
Import TestApi.

(** [opts || {}] *)
Definition orEmpty (opts : option RequestOpts) : RequestOpts :=
  match opts with Some o => o | None => noOpts end.

(** [req] after [.expect(key, value)] for each of [entries], in order. *)
Definition expecting (req : Request) (entries : list (string * Expected))
  : Request :=
  mkRequest (req_method req) (req_url req) (req_set req) (req_send req)
    (req_field req) (req_attach req) (req_expect req ++ entries)%list.

(** The request built from [opts] for a URL and authentication headers,
    with every entry of [expectations.headers] declared. *)
Definition requestOf (method : Method) (url : string)
    (opts : option RequestOpts) (auth : Headers) : Request :=
  expecting (initialRequest method url (orEmpty opts) auth)
            (declaredHeaders (orEmpty opts)).

Definition isDefined (e : Expected) : bool :=
  match e with ExpUndefined => false | _ => true end.

(** No entry of [expectations.headers] is [undefined] once the default of
    lines 100-102 is in. *)
Definition allDefined (opts : option RequestOpts) : bool :=
  forallb (fun entry => isDefined (snd entry))
          (declaredHeaders (orEmpty (afterDefaults opts))).

(** Every header named in [names] is missing from the response, or empty. *)
Definition allAbsent (headers : list (string * string)) (names : list string)
  : bool :=
  forallb
    (fun header =>
       match Js.assoc header headers with
       | Some value => String.eqb value ""
       | None => true
       end)
    names.

End TestApiShape.

(* ===================================================================== *)
(** * More concrete collaborators *)
(* ===================================================================== *)

Module Fixture.

(** A file system scripted step by step, behind a registry that serves
    [answer]. *)
Definition disk (answer : Foreign + Npm.Response)
    (download : Foreign + string) (found : Foreign + option string)
    (extract delete : Foreign + unit) (metadata : Foreign + Js.Val)
  : Npm.World :=
  Npm.mkWorld
    (fun path _ => inr ("https://registry.npmjs.org" ++ path))
    (fun _ => answer)
    (fun _ _ _ => download)
    (fun _ _ => found)
    (fun _ _ => extract)
    (fun _ => delete)
    (fun _ => metadata)
    (fun a b => a ++ "/" ++ b).

Definition tarballUrl : string :=
  "https://registry.npmjs.org/plugin/-/plugin-1.0.0.tgz".

(** A package document with everything [npmUpload] reads. *)
Definition published : Js.Val :=
  Js.Obj
    [ ("name", Js.Str "plugin");
      ("dist-tags", Js.Obj [("latest", Js.Str "1.0.0")]);
      ("versions",
        Js.Obj
          [ ("1.0.0",
              Js.Obj [("dist", Js.Obj [("tarball", Js.Str tarballUrl)])]) ]) ].

Definition metadata : Js.Val :=
  Js.Obj [("schema", Js.Obj [("type", Js.Str "component")])].

Definition enospc : Foreign := mkForeign (Some "ENOSPC") "Error: no space left".

Definition refused : Foreign :=
  mkForeign (Some "ECONNREFUSED") "Error: connect ECONNREFUSED".

Definition config : TestApiClient.Config :=
  TestApiClient.mkConfig
    (fun _ _ _ => inr [("x-budibase-type", TestApi.One "public")])
    (fun _ _ _ => inr [("x-budibase-type", TestApi.One "default")])
    (fun attempt => inr ("key-" ++ JsString.ofNat attempt))
    (fun _ => inr "tenant.example")
    (fun _ => inr "app_1").

Definition matchers : TestApiClient.Matchers :=
  TestApiClient.mkMatchers (fun _ => "{}") (fun _ _ => None) (fun _ => None).

Definition respond (status : Z) (headers : list (string * string))
    (body : Js.Val) : nat -> TestApi.Request -> Foreign + TestApi.Response :=
  fun _ _ => inr (TestApi.mkResponse status headers body).

(** A transport that resets the attempts before [n] and answers from [n]
    on. *)
Definition resetUntil (n : nat) (answer : TestApi.Response)
  : nat -> TestApi.Request -> Foreign + TestApi.Response :=
  fun attempt _ =>
    if Nat.ltb attempt n then inl Scenario.connReset else inr answer.

End Fixture.

(* ===================================================================== *)
(** * Properties of the string primitives *)
(* ===================================================================== *)

Module JsStringFacts.
Import JsString.

Lemma includes_prefix s p : String.prefix p s = true -> includes s p = true.
Proof. intros H. destruct s; simpl in *; rewrite H; reflexivity. Qed.

Lemma includes_tail c s p : includes s p = true -> includes (String c s) p = true.
Proof. intros H. simpl. rewrite H. apply orb_true_r. Qed.

(** A suffix is an occurrence. *)
Lemma endsWith_includes s p : endsWith s p = true -> includes s p = true.
Proof.
  unfold endsWith. intros H. apply andb_true_iff in H as [Hlen Heq].
  apply Nat.leb_le in Hlen. apply String.eqb_eq in Heq.
  induction s as [|c s IH].
  - simpl in *. assert (String.length p = 0) by lia.
    destruct p; [reflexivity | discriminate].
  - simpl String.length in *.
    destruct (Nat.eq_dec (String.length p) (S (String.length s))) as [E|E].
    + apply includes_prefix. apply prefix_correct.
      rewrite E in Heq at 1. rewrite Nat.sub_diag in Heq. exact Heq.
    + apply includes_tail. apply IH; [lia|].
      replace (S (String.length s) - String.length p)
        with (S (String.length s - String.length p)) in Heq by lia.
      exact Heq.
Qed.

(** Anything that starts with ["/"] passes a test for the prefix ["/"]. *)
Lemma startsWith_slash s : startsWith ("/" ++ s) "/" = true.
Proof. unfold startsWith. simpl. destruct s; reflexivity. Qed.

End JsStringFacts.

(* ===================================================================== *)
(** * The plugin ingester: properties *)
(* ===================================================================== *)

Module NpmFacts.
Import JsString JsStringFacts Npm.

(** Unfolds the effect combinators and splits on every collaborator's
    answer met on the way. *)
Ltac eff_unfold :=
  unfold Eff.bind, Eff.emit, Eff.await, Eff.prop, Eff.wrapErrors,
    Eff.ret, Eff.throw in *.

Ltac eff_cases :=
  repeat (simpl in *;
          match goal with
          | |- context [match ?x with _ => _ end] =>
              lazymatch x with
              | context [match _ with _ => _ end] => fail
              | _ => destruct x eqn:?
              end
          | |- context [if ?x then _ else _] =>
              lazymatch x with
              | context [match _ with _ => _ end] => fail
              | _ => destruct x eqn:?
              end
          end).

Lemma isValidBaseUrl_spec url :
  isValidBaseUrl url =
    startsWith url "https://www.npmjs.com/package/"
    || startsWith url "https://registry.npmjs.org/".
Proof. unfold isValidBaseUrl. simpl. rewrite orb_false_r. reflexivity. Qed.

Lemma registryPath_allowed url : isAllowedPath (registryPath url) = true.
Proof.
  unfold isAllowedPath, registryPath. apply existsb_exists.
  exists "/". split; [left; reflexivity | apply startsWith_slash].
Qed.

(** The unpacking starts with the download and never goes back to the
    registry. *)
Lemma unpack_log w tarball name headers :
  exists rest,
    fst (unpack w tarball name headers)
      = DownloadUnzipTarball tarball name headers :: rest
    /\ existsb isFetch rest = false
    /\ filter isDownload rest = [].
Proof.
  unfold unpack. eff_unfold. eff_cases; eexists; repeat split; reflexivity.
Qed.

Lemma unpack_never_invalid_path w tarball name headers :
  snd (unpack w tarball name headers)
    <> Throws (Raised "Invalid NPM package path").
Proof.
  unfold unpack. eff_unfold. eff_cases; simpl; discriminate.
Qed.

(** A URL with [".tgz"] in it goes straight to the unpacking. *)
Lemma npmUpload_tgz w url name headers :
  isValidBaseUrl url = true ->
  includes url ".tgz" = true ->
  npmUpload w url name headers = unpack w (Js.Str url) (Js.Str name) headers.
Proof.
  intros Hbase Htgz. unfold npmUpload. rewrite Hbase, Htgz. simpl.
  destruct (unpack w (Js.Str url) (Js.Str name) headers); reflexivity.
Qed.

Lemma npmUpload_tgz_log w url name headers :
  isValidBaseUrl url = true ->
  includes url ".tgz" = true ->
  existsb isFetch (fst (npmUpload w url name headers)) = false
  /\ filter isDownload (fst (npmUpload w url name headers))
     = [DownloadUnzipTarball (Js.Str url) (Js.Str name) headers].
Proof.
  intros Hbase Htgz. rewrite (npmUpload_tgz w url name headers Hbase Htgz).
  destruct (unpack_log w (Js.Str url) (Js.Str name) headers)
    as (rest & -> & Hf & Hd).
  simpl. rewrite Hf, Hd. split; reflexivity.
Qed.

(** The resolution up to the status test. *)
Lemma resolve_not_200 w url target response :
  newURL w (registryPath url) "https://registry.npmjs.org/" = inr target ->
  fetch w target = inr response ->
  status response <> 200%Z ->
  resolve w url = ([Fetch target], Throws (Raised "NPM Package not found")).
Proof.
  intros Hurl Hfetch Hstatus. unfold resolve.
  rewrite registryPath_allowed. simpl. rewrite Hurl. eff_unfold. simpl.
  rewrite Hfetch.
  apply Z.eqb_neq in Hstatus. rewrite Hstatus. reflexivity.
Qed.

(** A document with a [dist-tags] value whose tagged version has no
    usable tarball stops the upload before the download. *)
Lemma resolve_no_tarball w url target doc tags :
  newURL w (registryPath url) "https://registry.npmjs.org/" = inr target ->
  fetch w target = inr (mkResponse 200 (inr doc)) ->
  Js.get doc "dist-tags" = Some tags ->
  Js.nullish tags = false ->
  Js.truthy
    (Js.getOpt
       (Js.getOpt
          (Js.getOpt (Js.getOpt doc "versions")
             (Js.toString (Js.ownProp tags "latest")))
          "dist")
       "tarball") = false ->
  resolve w url
    = ([Fetch target; ReadJson], Throws (Raised "NPM tarball url not found")).
Proof.
  intros Hurl Hfetch Htags Hnn Hfalsy. unfold resolve.
  rewrite registryPath_allowed. simpl. rewrite Hurl. eff_unfold. simpl.
  rewrite Hfetch. simpl.
  unfold Js.get in *. destruct (Js.nullish doc) eqn:Hdoc; [discriminate|].
  injection Htags as <-. rewrite Hnn. simpl.
  rewrite Hfalsy. reflexivity.
Qed.

End NpmFacts.

Module NpmSpec.
Import JsString JsStringFacts Npm NpmFacts.

Lemma resolve_never_invalid_path w url :
  snd (resolve w url) <> Throws (Raised "Invalid NPM package path").
Proof.
  unfold resolve. rewrite registryPath_allowed.
  eff_unfold. eff_cases; simpl; discriminate.
Qed.

(** C1.  A URL that starts with neither allow-listed prefix makes
    [npmUpload] throw "The plugin origin must be from NPM" with an empty
    effect log: nothing was fetched and the file system was not touched. *)
Theorem npmUpload_foreign_origin w url name headers :
  startsWith url "https://www.npmjs.com/package/" = false ->
  startsWith url "https://registry.npmjs.org/" = false ->
  npmUpload w url name headers
    = ([], Throws (Raised "The plugin origin must be from NPM")).
Proof.
  intros Hpage Hregistry. unfold npmUpload.
  rewrite isValidBaseUrl_spec, Hpage, Hregistry. reflexivity.
Qed.

Lemma npmUpload_foreign_origin_witness :
  npmUpload (Scenario.registry Scenario.notFound)
    "https://evil.example/package/plugin.tgz" "plugin" []
    = ([], Throws (Raised "The plugin origin must be from NPM")).
Proof.
  apply npmUpload_foreign_origin; reflexivity.
Defined.

(** C3, at the registry root.  The document served there is valid JSON
    with status 200 and has no [dist-tags]; reading [.latest] of the
    missing value (line 39) throws a TypeError, not the error "NPM tarball
    url not found" of line 43. *)
Theorem npmUpload_missing_dist_tags :
  let w := Scenario.registry Scenario.registryRoot in
  let r := npmUpload w "https://registry.npmjs.org/" "plugin" [] in
  fetch w "https://registry.npmjs.org/" = Scenario.registryRoot
  /\ r = ([Fetch "https://registry.npmjs.org/"; ReadJson],
          Throws (TypeError
                    "Cannot read properties of undefined (reading 'latest')"))
  /\ snd r <> Throws (Raised "NPM tarball url not found").
Proof.
  repeat split. vm_compute. discriminate.
Qed.

(** With a [dist-tags] object that has no [latest], the version looked up
    is the one named ["undefined"]; a document without such a version
    gets the descriptive error and no download. *)
Example npmUpload_untagged :
  npmUpload (Scenario.registry Scenario.untagged)
    "https://www.npmjs.com/package/plugin" "plugin" []
  = ([Fetch "https://registry.npmjs.org/plugin"; ReadJson],
     Throws (Raised "NPM tarball url not found")).
Proof. reflexivity. Qed.

(** C6.  On a URL without [".tgz"] from an allow-listed origin, a registry
    answer whose status is not 200 makes [npmUpload] throw exactly "NPM
    Package not found"; the log holds the fetch alone, so the body was not
    read and nothing was downloaded.  (The path test of line 28 needs no
    hypothesis: see [registryPath_allowed].) *)
Theorem npmUpload_not_200 w url name headers target response :
  isValidBaseUrl url = true ->
  includes url ".tgz" = false ->
  newURL w (registryPath url) "https://registry.npmjs.org/" = inr target ->
  fetch w target = inr response ->
  status response <> 200%Z ->
  npmUpload w url name headers
    = ([Fetch target], Throws (Raised "NPM Package not found")).
Proof.
  intros Hbase Htgz Hurl Hfetch Hstatus. unfold npmUpload.
  rewrite Hbase, Htgz. simpl.
  rewrite (resolve_not_200 w url target response Hurl Hfetch Hstatus).
  reflexivity.
Qed.

Lemma npmUpload_not_200_witness :
  npmUpload (Scenario.registry Scenario.notFound)
    "https://www.npmjs.com/package/plugin" "plugin" []
    = ([Fetch "https://registry.npmjs.org/plugin"],
       Throws (Raised "NPM Package not found")).
Proof.
  apply (npmUpload_not_200 (Scenario.registry Scenario.notFound)
           "https://www.npmjs.com/package/plugin" "plugin" []
           "https://registry.npmjs.org/plugin"
           (mkResponse 404 (inr (Js.Obj [("error", Js.Str "Not found")]))));
    try reflexivity.
  simpl. discriminate.
Defined.

(** C7.  An allow-listed URL that ends in [".tgz"] skips the resolution:
    [npmUpload] is the unpacking of that very URL, its log has no fetch,
    and its one download is that of the URL and name supplied. *)
Theorem npmUpload_direct_tarball w url name headers :
  isValidBaseUrl url = true ->
  endsWith url ".tgz" = true ->
  npmUpload w url name headers = unpack w (Js.Str url) (Js.Str name) headers
  /\ existsb isFetch (fst (npmUpload w url name headers)) = false
  /\ filter isDownload (fst (npmUpload w url name headers))
     = [DownloadUnzipTarball (Js.Str url) (Js.Str name) headers].
Proof.
  intros Hbase Hends. apply endsWith_includes in Hends.
  split; [apply npmUpload_tgz | apply npmUpload_tgz_log]; assumption.
Qed.

Lemma npmUpload_direct_tarball_witness :
  let w := Scenario.registry Scenario.notFound in
  let url := "https://registry.npmjs.org/plugin/-/plugin-1.0.0.tgz" in
  npmUpload w url "plugin" [] = unpack w (Js.Str url) (Js.Str "plugin") []
  /\ existsb isFetch (fst (npmUpload w url "plugin" [])) = false
  /\ filter isDownload (fst (npmUpload w url "plugin" []))
     = [DownloadUnzipTarball (Js.Str url) (Js.Str "plugin") []].
Proof.
  apply npmUpload_direct_tarball; reflexivity.
Defined.

(** C9.  The path built on line 27 always passes the test of line 28, and
    no run of [npmUpload] ends in the "Invalid NPM package path" error of
    line 29. *)
Theorem invalid_path_unreachable :
  (forall url, isAllowedPath (registryPath url) = true)
  /\ (forall w url name headers,
        snd (npmUpload w url name headers)
          <> Throws (Raised "Invalid NPM package path")).
Proof.
  split; [exact registryPath_allowed|].
  intros w url name headers. unfold npmUpload.
  destruct (isValidBaseUrl url); simpl; [|discriminate].
  destruct (includes url ".tgz"); simpl.
  - pose proof (unpack_never_invalid_path w (Js.Str url) (Js.Str name) headers).
    destruct (unpack w (Js.Str url) (Js.Str name) headers).
    simpl in *. assumption.
  - pose proof (resolve_never_invalid_path w url) as Hr.
    unfold Eff.bind. destruct (resolve w url) as [log [[tarball plugin]|t]];
      simpl in *; [|intros H; apply Hr; injection H as ->; reflexivity].
    pose proof (unpack_never_invalid_path w tarball plugin headers).
    destruct (unpack w tarball plugin headers). simpl in *. assumption.
Qed.

(** C10.  An allow-listed URL with [".tgz"] anywhere in it, suffix or not,
    skips the resolution: no fetch, and the URL itself is what is
    downloaded. *)
Theorem npmUpload_tgz_anywhere w url name headers :
  isValidBaseUrl url = true ->
  includes url ".tgz" = true ->
  npmUpload w url name headers = unpack w (Js.Str url) (Js.Str name) headers
  /\ existsb isFetch (fst (npmUpload w url name headers)) = false
  /\ hd_error (fst (npmUpload w url name headers))
     = Some (DownloadUnzipTarball (Js.Str url) (Js.Str name) headers).
Proof.
  intros Hbase Htgz. split; [apply npmUpload_tgz; assumption|].
  split; [apply npmUpload_tgz_log; assumption|].
  rewrite (npmUpload_tgz w url name headers Hbase Htgz).
  destruct (unpack_log w (Js.Str url) (Js.Str name) headers) as (rest & -> & _).
  reflexivity.
Qed.

(** The URL of this instance has [".tgz"] in the middle of its path. *)
Lemma npmUpload_tgz_anywhere_witness :
  let w := Scenario.registry Scenario.notFound in
  let url := "https://www.npmjs.com/package/plugin.tgz/v/1.0.0" in
  endsWith url ".tgz" = false
  /\ npmUpload w url "plugin" [] = unpack w (Js.Str url) (Js.Str "plugin") []
  /\ existsb isFetch (fst (npmUpload w url "plugin" [])) = false
  /\ hd_error (fst (npmUpload w url "plugin" []))
     = Some (DownloadUnzipTarball (Js.Str url) (Js.Str "plugin") []).
Proof.
  split; [reflexivity|].
  apply npmUpload_tgz_anywhere; reflexivity.
Defined.

End NpmSpec.

(* ===================================================================== *)
(** * The test request wrapper: properties *)
(* ===================================================================== *)

Module TestApiFacts.
Import JsString TestApi.
Local Arguments Eff.bind : simpl never.
Local Arguments Nat.sub : simpl never.

(** One invocation, as a plain case analysis. *)
Lemma requestRaw_unfold w method url opts attempt :
  _requestRaw w method url opts attempt =
  match build w method url (afterDefaults opts) attempt with
  | (log, Throws e) => (log, Throws e)
  | (log, Returns req) =>
      match transport w attempt req with
      | inr resp => ((log ++ [Send req])%list, Returns resp)
      | inl e =>
          if isConnectionReset e && negb (Nat.ltb 2 attempt) then
            Eff.bind ((log ++ [Send req])%list, Returns tt)
              (fun _ =>
                 _requestRaw w method (withQuery url (queryOf opts))
                   (afterDefaults opts) (attempt + 1))
          else ((log ++ [Send req])%list, Throws (Rethrown e))
      end
  end.
Proof.
  simp _requestRaw.
  destruct (build w method url (afterDefaults opts) attempt) as [log [req|t]];
    simp _requestRaw; [|reflexivity].
  destruct (transport w attempt req) as [e|resp]; simp _requestRaw;
    [|reflexivity].
  destruct (isConnectionReset e); simp _requestRaw; [|reflexivity].
  destruct (inspect (Nat.ltb 2 attempt)) as [[|] Hlt];
    simp _requestRaw; rewrite Hlt; reflexivity.
Qed.

Lemma bind_logged {A} (log : list Event) (k : unit -> Eff.t Event A) :
  Eff.bind (log, Returns tt) k = ((log ++ fst (k tt))%list, snd (k tt)).
Proof. unfold Eff.bind. destruct (k tt); reflexivity. Qed.

Lemma sent_app l1 l2 : sent (l1 ++ l2) = (sent l1 ++ sent l2)%list.
Proof. unfold sent. apply flat_map_app. Qed.

(** *** The query string *)

Lemma pushParams_spec acc query :
  pushParams acc query
    = (acc ++ map renderPair (filter truthyPair query))%list.
Proof.
  revert acc. induction query as [|[key [v|]] rest IH]; intros acc; simpl.
  - rewrite app_nil_r. reflexivity.
  - unfold truthyPair at 1. simpl.
    destruct (negb (String.eqb v "")); rewrite IH; [|reflexivity].
    rewrite <- app_assoc. reflexivity.
  - apply IH.
Qed.

Lemma filter_nil_existsb {A} (f : A -> bool) l :
  existsb f l = match filter f l with [] => false | _ :: _ => true end.
Proof.
  induction l as [|x l IH]; simpl; [reflexivity|].
  destruct (f x); simpl; [reflexivity | exact IH].
Qed.

Lemma withQuery_spec url query : withQuery url query = queryUrlSpec url query.
Proof.
  unfold withQuery, queryUrlSpec. rewrite pushParams_spec. simpl.
  rewrite filter_nil_existsb.
  destruct (filter truthyPair query); reflexivity.
Qed.

Lemma queryOf_afterDefaults opts : queryOf (afterDefaults opts) = queryOf opts.
Proof. destruct opts; reflexivity. Qed.

(** *** Building the request *)

Lemma expectAll_log req entries : fst (expectAll req entries) = [].
Proof.
  revert req. induction entries as [|[key value] rest IH]; intros req; simpl.
  - reflexivity.
  - destruct value; simpl; auto.
Qed.

Lemma expectAll_url req entries req' :
  snd (expectAll req entries) = Returns req' -> req_url req' = req_url req.
Proof.
  revert req. induction entries as [|[key value] rest IH]; intros req; simpl.
  - intros [= <-]. reflexivity.
  - destruct value; simpl; try discriminate; intros H; apply IH in H; exact H.
Qed.

Lemma build_unfold w method url opts attempt :
  build w method url opts attempt =
  let o := match opts with Some o => o | None => noOpts end in
  match getHeaders w attempt opts stacktraceHeader with
  | inl e => ([GetHeaders attempt], Throws (Rethrown e))
  | inr auth =>
      let declared :=
        expectAll
          (initialRequest method (withQuery url (queryOf opts)) o auth)
          (declaredHeaders o) in
      (GetHeaders attempt :: fst declared, snd declared)
  end.
Proof.
  unfold build, Eff.bind, Eff.emit, Eff.await. simpl.
  destruct (getHeaders w attempt opts stacktraceHeader); simpl;
    [reflexivity|].
  destruct (expectAll _ _); reflexivity.
Qed.

Lemma build_log w method url opts attempt :
  fst (build w method url opts attempt) = [GetHeaders attempt].
Proof.
  rewrite build_unfold. simpl.
  destruct (getHeaders w attempt opts stacktraceHeader); simpl;
    [reflexivity|].
  rewrite expectAll_log. reflexivity.
Qed.

Lemma build_url w method url opts attempt req :
  snd (build w method url opts attempt) = Returns req ->
  req_url req = withQuery url (queryOf opts).
Proof.
  rewrite build_unfold. simpl.
  destruct (getHeaders w attempt opts stacktraceHeader); simpl;
    [discriminate|].
  intros H. apply expectAll_url in H. exact H.
Qed.

Lemma build_sent w method url opts attempt :
  sent (fst (build w method url opts attempt)) = [].
Proof. rewrite build_log. reflexivity. Qed.

(** *** The default [Content-Type] expectation *)

Lemma setProp_keeps {A} k0 (v0 : A) k v l :
  k <> k0 -> In (k, v) l -> In (k, v) (setProp k0 v0 l).
Proof.
  intros Hk. induction l as [|[k' v'] l IH]; simpl; [tauto|].
  intros [H|H].
  - injection H as -> ->.
    destruct (String.eqb k k0) eqn:E;
      [apply String.eqb_eq in E; contradiction | left; reflexivity].
  - destruct (String.eqb k' k0); [right; exact H | right; auto].
Qed.

Lemma setProp_adds_only {A} k0 (v0 : A) k v l :
  In (k, v) (setProp k0 v0 l) -> v = v0 \/ In (k, v) l.
Proof.
  induction l as [|[k' v'] l IH]; simpl.
  - intros [H|[]]. injection H as _ <-. left; reflexivity.
  - destruct (String.eqb k' k0); simpl.
    + intros [H|H]; [injection H as _ <-; left; reflexivity | right; right; exact H].
    + intros [H|H]; [right; left; exact H | destruct (IH H); auto].
Qed.

(** An [undefined] under another key than [Content-Type], or under any key
    when the expected status is 204, is still there after line 101; and
    line 101 adds no [undefined]. *)
Lemma declaredHeaders_afterDefaults o e expected key :
  expectations o = Some e ->
  exp_headers e = Some expected ->
  In (key, ExpUndefined) expected ->
  key <> "Content-Type" \/ expectedStatus (Some e) = 204%Z ->
  forall o', afterDefaults (Some o) = Some o' ->
    In (key, ExpUndefined) (declaredHeaders o')
    /\ (forall k, In (k, ExpUndefined) (declaredHeaders o') ->
                  In (k, ExpUndefined) expected).
Proof.
  intros He Hexp Hin Hcase o' [= <-].
  unfold declaredHeaders. simpl. rewrite He. simpl.
  unfold defaultContentType. rewrite Hexp.
  destruct (negb (expectedStatus (Some e) =? 204)%Z
            && match Js.assoc "Content-Type" expected with
               | Some v => negb (truthyExpected v)
               | None => true
               end) eqn:Hdefault; simpl; [|rewrite Hexp; auto].
  split.
  - destruct Hcase as [Hkey|H204].
    + apply setProp_keeps; assumption.
    + rewrite H204 in Hdefault. discriminate.
  - intros k Hk. apply setProp_adds_only in Hk as [Habs|Hk];
      [discriminate | exact Hk].
Qed.

Lemma expectAll_undefined entries : forall req key,
  In (key, ExpUndefined) entries ->
  exists key',
    In (key', ExpUndefined) entries
    /\ expectAll req entries
       = ([], Throws (Raised (undefinedHeaderMessage key'))).
Proof.
  induction entries as [|[k v] rest IH]; intros req key; simpl; [tauto|].
  intros Hin. destruct v.
  - exists k. split; [left|]; reflexivity.
  - destruct Hin as [H|H]; [discriminate|].
    match goal with
    | |- context [expectAll ?r rest] =>
        destruct (IH r key H) as (key' & Hin' & Heq)
    end.
    exists key'. split; [right; exact Hin' | exact Heq].
  - destruct Hin as [H|H]; [discriminate|].
    match goal with
    | |- context [expectAll ?r rest] =>
        destruct (IH r key H) as (key' & Hin' & Heq)
    end.
    exists key'. split; [right; exact Hin' | exact Heq].
Qed.

(** *** Counting attempts *)

Lemma sent_bound w method opts : forall k attempt url,
  3 - attempt <= k ->
  List.length (sent (fst (_requestRaw w method url opts attempt)))
    <= S (3 - attempt).
Proof.
  intros k. revert opts.
  induction k as [|k IH]; intros opts attempt url Hk;
    rewrite requestRaw_unfold;
    pose proof (build_sent w method url (afterDefaults opts) attempt) as Hb;
    destruct (build w method url (afterDefaults opts) attempt)
      as [log [req|t]]; simpl in Hb |- *;
    try (rewrite Hb; simpl; lia);
    destruct (transport w attempt req) as [e|resp]; simpl;
    try (rewrite sent_app, Hb; simpl; lia);
    destruct (isConnectionReset e); simpl;
    try (rewrite sent_app, Hb; simpl; lia);
    destruct (Nat.ltb 2 attempt) eqn:Hlt; simpl;
    try (rewrite sent_app, Hb; simpl; lia);
    apply Nat.ltb_ge in Hlt; [lia|].
  rewrite bind_logged. simpl. rewrite !sent_app, Hb. simpl.
  specialize (IH (afterDefaults opts) (attempt + 1)
                (withQuery url (queryOf opts))).
  assert (Hle : 3 - (attempt + 1) <= k) by lia.
  specialize (IH Hle). lia.
Qed.

Lemma always_reset_throws w method opts :
  (forall attempt req, exists e,
      transport w attempt req = inl e /\ isConnectionReset e = true) ->
  forall k attempt url,
    3 - attempt <= k ->
    exists t, snd (_requestRaw w method url opts attempt) = Throws t.
Proof.
  intros Hreset k. revert opts.
  induction k as [|k IH]; intros opts attempt url Hk;
    rewrite requestRaw_unfold;
    destruct (build w method url (afterDefaults opts) attempt)
      as [log [req|t]]; simpl;
    try (eexists; reflexivity);
    destruct (Hreset attempt req) as (e & -> & ->); simpl;
    destruct (Nat.ltb 2 attempt) eqn:Hlt; simpl;
    try (eexists; reflexivity);
    apply Nat.ltb_ge in Hlt; [lia|].
  rewrite bind_logged. simpl. apply IH. lia.
Qed.

(** Line 101 changes nothing the second time. *)
Lemma assoc_setProp {A} k (v : A) l : Js.assoc k (setProp k v l) = Some v.
Proof.
  induction l as [|[k' v'] l IH]; simpl.
  - rewrite String.eqb_refl. reflexivity.
  - destruct (String.eqb k' k) eqn:E; simpl.
    + rewrite String.eqb_refl. reflexivity.
    + rewrite E. exact IH.
Qed.

Lemma defaultContentType_idem e :
  defaultContentType (defaultContentType e) = defaultContentType e.
Proof.
  destruct e as [st [hs|] absent bd]; unfold defaultContentType; simpl;
    [|reflexivity].
  destruct (negb (match st with Some s => s | None => 200%Z end =? 204)%Z
            && match Js.assoc "Content-Type" hs with
               | Some v => negb (truthyExpected v)
               | None => true
               end) eqn:Hc; simpl.
  - rewrite assoc_setProp. simpl. rewrite andb_false_r. reflexivity.
  - rewrite Hc. reflexivity.
Qed.

Lemma afterDefaults_idem opts :
  afterDefaults (afterDefaults opts) = afterDefaults opts.
Proof.
  destruct opts as [o|]; [|reflexivity]. simpl.
  destruct (expectations o); simpl; [|reflexivity].
  rewrite defaultContentType_idem. reflexivity.
Qed.

(** When every request can be built and every attempt is reset, the
    attempts numbered [attempt], ..., 3 are all made and the last reset is
    what the caller gets. *)
Lemma always_reset_exact w method :
  (forall attempt req, exists e,
      transport w attempt req = inl e /\ isConnectionReset e = true) ->
  forall k opts attempt url,
    (forall attempt' url', exists req,
        snd (build w method url' (afterDefaults opts) attempt')
          = Returns req) ->
    3 - attempt = k -> attempt <= 3 ->
    List.length (sent (fst (_requestRaw w method url opts attempt)))
      = 4 - attempt
    /\ exists e, isConnectionReset e = true
                 /\ snd (_requestRaw w method url opts attempt)
                    = Throws (Rethrown e).
Proof.
  intros Hreset k.
  induction k as [|k IH]; intros opts attempt url Hbuild Hk Hle;
    rewrite requestRaw_unfold;
    pose proof (build_sent w method url (afterDefaults opts) attempt) as Hb;
    destruct (Hbuild attempt url) as (req & Hreq);
    destruct (build w method url (afterDefaults opts) attempt)
      as [log r]; simpl in Hb, Hreq; subst r;
    destruct (Hreset attempt req) as (e & Ht & He); rewrite Ht, He; simpl;
    destruct (Nat.ltb 2 attempt) eqn:Hlt; simpl.
  - rewrite sent_app, Hb. simpl. split; [lia|]. exists e. auto.
  - apply Nat.ltb_ge in Hlt. lia.
  - apply Nat.ltb_lt in Hlt. lia.
  - apply Nat.ltb_ge in Hlt. rewrite bind_logged. simpl.
    rewrite !sent_app, Hb. simpl.
    destruct (IH (afterDefaults opts) (attempt + 1)
                (withQuery url (queryOf opts))) as (Hlen & e' & He' & Hsnd);
      [rewrite afterDefaults_idem; exact Hbuild | lia | lia |].
    split; [lia|]. exists e'. auto.
Qed.

End TestApiFacts.

Module TestApiSpec.
Import JsString TestApi TestApiFacts.
Local Arguments Eff.bind : simpl never.

(** A transport that resets every attempt is tried four times by a call
    that starts at attempt 0, one more than three. *)
Lemma reset_reaches_fourth_attempt :
  let r := _requestRaw Scenario.alwaysReset GET "/api/tables" None 0 in
  (forall attempt req,
      transport Scenario.alwaysReset attempt req = inl Scenario.connReset)
  /\ isConnectionReset Scenario.connReset = true
  /\ List.length (sent (fst r)) = 4
  /\ ~ List.length (sent (fst r)) <= 3.
Proof.
  repeat split. vm_compute. lia.
Qed.

(** C2, amended.  When the transport resets every attempt, a call makes at
    most four attempts (the first and three retries) and ends by throwing;
    and when the request can be built on every attempt, it makes exactly
    four and what it throws is a connection reset of the transport. *)
Theorem reset_retried_three_times w method url opts :
  (forall attempt req, exists e,
      transport w attempt req = inl e /\ isConnectionReset e = true) ->
  let r := _requestRaw w method url opts 0 in
  List.length (sent (fst r)) <= 4
  /\ (exists t, snd r = Throws t)
  /\ ((forall attempt url', exists req,
          snd (build w method url' (afterDefaults opts) attempt)
            = Returns req) ->
      List.length (sent (fst r)) = 4
      /\ exists e, isConnectionReset e = true
                   /\ snd r = Throws (Rethrown e)).
Proof.
  intros Hreset r. subst r. split; [|split].
  - apply (sent_bound w method opts 3 0 url). lia.
  - apply (always_reset_throws w method opts Hreset 3 0 url). lia.
  - intros Hbuild.
    apply (always_reset_exact w method Hreset 3 opts 0 url Hbuild); lia.
Qed.

Lemma reset_retried_three_times_witness :
  let r := _requestRaw Scenario.alwaysReset POST "/api/tables" None 0 in
  List.length (sent (fst r)) <= 4
  /\ (exists t, snd r = Throws t)
  /\ ((forall attempt url', exists req,
          snd (build Scenario.alwaysReset POST url' (afterDefaults None) attempt)
            = Returns req) ->
      List.length (sent (fst r)) = 4
      /\ exists e, isConnectionReset e = true
                   /\ snd r = Throws (Rethrown e)).
Proof.
  apply (reset_retried_three_times Scenario.alwaysReset POST "/api/tables" None).
  intros attempt req. exists Scenario.connReset. split; reflexivity.
Defined.

(** C4, on a transport that resets the first attempt.  The retry is sent
    to the URL of the first attempt with the query string appended a
    second time. *)
Theorem retry_appends_query_again :
  let opts := Scenario.withQueryOpts [("tableId", Some "ta_1")] in
  let r := _requestRaw Scenario.resetOnce GET "/api/rows" opts 0 in
  map req_url (sent (fst r))
    = ["/api/rows?tableId=ta_1"; "/api/rows?tableId=ta_1?tableId=ta_1"]
  /\ snd r = Returns Scenario.ok.
Proof. split; reflexivity. Qed.

(** C5 fails for [Content-Type]: with the default expected status, line
    101 replaces the [undefined] by the JSON pattern before the loop of
    line 139 looks at it, and the request is sent. *)
Lemma undefined_content_type_is_sent :
  let expected := [("Content-Type", ExpUndefined)] in
  let opts := Scenario.withExpectedHeaders None expected in
  let r := _requestRaw Scenario.reliable GET "/api/tables" (Some opts) 0 in
  In ("Content-Type", ExpUndefined) expected
  /\ List.length (sent (fst r)) = 1
  /\ snd r = Returns Scenario.ok
  /\ ~ (exists t, snd r = Throws t).
Proof.
  repeat split; try (left; reflexivity).
  intros [t Ht]. vm_compute in Ht. discriminate.
Qed.

(** C5, amended.  When [expectations.headers] binds [undefined] to a key
    other than [Content-Type], or to any key while the expected status is
    204, the call throws and no request is sent; and when the
    authentication headers resolve, what it throws is the error telling the
    caller to use [headersNotPresent], for a key bound to [undefined]. *)
Theorem undefined_expected_header_throws
    w method url o e expected key attempt :
  expectations o = Some e ->
  exp_headers e = Some expected ->
  In (key, ExpUndefined) expected ->
  key <> "Content-Type" \/ expectedStatus (Some e) = 204%Z ->
  let r := _requestRaw w method url (Some o) attempt in
  sent (fst r) = []
  /\ (exists t, snd r = Throws t)
  /\ (forall auth,
        getHeaders w attempt (afterDefaults (Some o)) stacktraceHeader
          = inr auth ->
        exists key',
          In (key', ExpUndefined) expected
          /\ snd r = Throws (Raised (undefinedHeaderMessage key'))).
Proof.
  intros He Hexp Hin Hcase r. subst r.
  destruct (afterDefaults (Some o)) as [o'|] eqn:Ho'; [|discriminate].
  destruct (declaredHeaders_afterDefaults o e expected key
              He Hexp Hin Hcase o' Ho') as [Hin' Hback].
  rewrite requestRaw_unfold, build_unfold, Ho'. cbv zeta.
  destruct (getHeaders w attempt (Some o') stacktraceHeader) as [err|auth].
  - repeat split; [eexists; reflexivity | discriminate].
  - destruct (expectAll_undefined (declaredHeaders o')
                (initialRequest method (withQuery url (queryOf (Some o'))) o' auth)
                key Hin') as (key' & Hkey' & ->).
    simpl. repeat split; [eexists; reflexivity|].
    intros _ _. exists key'. split; [apply Hback; exact Hkey' | reflexivity].
Qed.

Lemma undefined_expected_header_throws_witness :
  let expected := [("x-foo", ExpUndefined)] in
  let o := Scenario.withExpectedHeaders None expected in
  let r := _requestRaw Scenario.reliable GET "/api/tables" (Some o) 0 in
  sent (fst r) = []
  /\ (exists t, snd r = Throws t)
  /\ (forall auth,
        getHeaders Scenario.reliable 0 (afterDefaults (Some o)) stacktraceHeader
          = inr auth ->
        exists key',
          In (key', ExpUndefined) expected
          /\ snd r = Throws (Raised (undefinedHeaderMessage key'))).
Proof.
  apply (undefined_expected_header_throws Scenario.reliable GET "/api/tables"
           (Scenario.withExpectedHeaders None [("x-foo", ExpUndefined)])
           (mkExpectations None (Some [("x-foo", ExpUndefined)]) None None)
           [("x-foo", ExpUndefined)] "x-foo" 0).
  - reflexivity.
  - reflexivity.
  - left; reflexivity.
  - left; discriminate.
Defined.

(** C8.  The URL after line 112 is the given one followed, when some pair
    of [query] is truthy, by [?] and the truthy pairs in entry order, each
    as [key=value], joined with [&]; it is the given one when no pair is
    truthy.  It is the URL of the first request an invocation sends. *)
Theorem query_string_built_once :
  (forall url query,
      withQuery url query
      = if existsb truthyPair query
        then url ++ "?" ++ join (map renderPair (filter truthyPair query)) "&"
        else url)
  /\ (forall w method url opts attempt,
        match sent (fst (_requestRaw w method url opts attempt)) with
        | req :: _ => req_url req = queryUrlSpec url (queryOf opts)
        | [] => True
        end).
Proof.
  split; [exact withQuery_spec|].
  intros w method url opts attempt. rewrite requestRaw_unfold.
  pose proof (build_sent w method url (afterDefaults opts) attempt) as Hb.
  pose proof (build_url w method url (afterDefaults opts) attempt) as Hu.
  destruct (build w method url (afterDefaults opts) attempt) as [log [req|t]];
    simpl in Hb, Hu |- *; [|rewrite Hb; exact I].
  specialize (Hu req eq_refl).
  rewrite queryOf_afterDefaults, withQuery_spec in Hu.
  destruct (transport w attempt req) as [e|resp]; simpl.
  - destruct (isConnectionReset e && negb (2 <? attempt)%nat).
    + rewrite bind_logged. simpl. rewrite !sent_app, Hb. simpl. exact Hu.
    + simpl. rewrite sent_app, Hb. simpl. exact Hu.
  - rewrite sent_app, Hb. simpl. exact Hu.
Qed.

End TestApiSpec.


(* ===================================================================== *)
(** * Splitting and joining *)
(* ===================================================================== *)

Module JsStringMore.
Import JsString.

Lemma append_nil_r s : s ++ "" = s.
Proof. induction s as [|c s IH]; simpl; [|rewrite IH]; reflexivity. Qed.

Lemma append_assoc s1 s2 s3 : (s1 ++ s2) ++ s3 = s1 ++ (s2 ++ s3).
Proof. induction s1 as [|c s1 IH]; simpl; [|rewrite IH]; reflexivity. Qed.

Lemma prefix_append p s : String.prefix p (p ++ s) = true.
Proof.
  induction p as [|c p IH]; simpl.
  - destruct s; reflexivity.
  - destruct (ascii_dec c c) as [_|Hne]; [exact IH | contradiction].
Qed.

Lemma splitAcc_nonempty sep cur s : splitAcc sep cur s <> [].
Proof.
  revert cur. induction s as [|c s IH]; intros cur; simpl; [discriminate|].
  destruct (Ascii.eqb c sep); [discriminate | apply IH].
Qed.

Lemma join_cons x xs sep :
  xs <> [] -> join (x :: xs) sep = x ++ sep ++ join xs sep.
Proof. destruct xs; [contradiction | reflexivity]. Qed.

(** Joining the segments with the separator gives the text back. *)
Lemma splitAcc_join sep s : forall cur,
  join (splitAcc sep cur s) (String sep "") = cur ++ s.
Proof.
  induction s as [|c s IH]; intros cur; simpl.
  - unfold join. simpl. rewrite append_nil_r. reflexivity.
  - destruct (Ascii.eqb c sep) eqn:E.
    + apply Ascii.eqb_eq in E. subst c.
      rewrite join_cons by apply splitAcc_nonempty.
      rewrite IH. reflexivity.
    + rewrite IH, append_assoc. reflexivity.
Qed.

Lemma split_join s sep : join (split s sep) (String sep "") = s.
Proof. unfold split. rewrite splitAcc_join. reflexivity. Qed.

Lemma includes_char_cons c s sep :
  includes (String c s) (String sep "") = false ->
  Ascii.eqb c sep = false /\ includes s (String sep "") = false.
Proof.
  simpl. intros H. apply orb_false_iff in H as [Hp Hi]. split; [|exact Hi].
  destruct (ascii_dec sep c) as [->|Hne].
  - destruct s; discriminate.
  - apply Ascii.eqb_neq. congruence.
Qed.

(** A text without the separator is its own single segment. *)
Lemma splitAcc_whole sep s : forall cur,
  includes s (String sep "") = false ->
  splitAcc sep cur s = [cur ++ s].
Proof.
  induction s as [|c s IH]; intros cur H; simpl.
  - rewrite append_nil_r. reflexivity.
  - apply includes_char_cons in H as [Hc Hs]. rewrite Hc.
    rewrite IH by exact Hs. rewrite append_assoc. reflexivity.
Qed.

(** The first separator ends the first segment. *)
Lemma splitAcc_first sep seg more : forall cur,
  includes seg (String sep "") = false ->
  splitAcc sep cur (seg ++ String sep more)
    = (cur ++ seg) :: splitAcc sep "" more.
Proof.
  induction seg as [|c seg IH]; intros cur H; simpl.
  - rewrite Ascii.eqb_refl, append_nil_r. reflexivity.
  - apply includes_char_cons in H as [Hc Hs]. rewrite Hc.
    rewrite IH by exact Hs. rewrite append_assoc. reflexivity.
Qed.

End JsStringMore.

(* ===================================================================== *)
(** * The plugin ingester: further properties *)
(* ===================================================================== *)

Module NpmMore.
Import JsString JsStringFacts JsStringMore Npm NpmFacts.

(** X1.  The copy of [npmUpload] without the path test and the one with
    it give the same effects and the same completion on every input. *)
Theorem revisions_agree w url name headers :
  NpmPrevious.npmUpload w url name headers = npmUpload w url name headers.
Proof.
  unfold NpmPrevious.npmUpload, npmUpload.
  change (existsb (fun baseUrl => startsWith url baseUrl) ALLOWED_BASE_URLS)
    with (isValidBaseUrl url).
  destruct (isValidBaseUrl url); [|reflexivity]. simpl.
  destruct (includes url ".tgz"); [reflexivity|]. simpl.
  assert (Hr : NpmPrevious.resolve w url = resolve w url).
  { unfold resolve. rewrite registryPath_allowed. reflexivity. }
  rewrite Hr. reflexivity.
Qed.

(** X2.  For a package page of npmjs.com, the path sent to the registry is
    everything that follows the allow-listed prefix. *)
Theorem registryPath_package_page rest :
  registryPath ("https://www.npmjs.com/package/" ++ rest) = "/" ++ rest.
Proof.
  unfold registryPath, split. simpl.
  change (splitAcc "/" "" rest) with (split rest "/"%char).
  rewrite split_join. reflexivity.
Qed.

(** X3.  For a URL of the registry itself, the first segment after the host
    is not part of the path: a URL with a single segment is resolved to the
    registry root, and a longer one to what follows its first segment. *)
Theorem registryPath_registry seg more :
  includes seg "/" = false ->
  registryPath ("https://registry.npmjs.org/" ++ seg) = "/"
  /\ registryPath ("https://registry.npmjs.org/" ++ seg ++ "/" ++ more)
     = "/" ++ more.
Proof.
  intros Hseg. unfold registryPath, split. simpl. split.
  - rewrite (splitAcc_whole "/" seg "" Hseg). reflexivity.
  - change (seg ++ String "/" more) with (seg ++ String "/"%char more).
    rewrite (splitAcc_first "/" seg more "" Hseg). simpl.
    change (splitAcc "/" "" more) with (split more "/"%char).
    rewrite split_join. reflexivity.
Qed.

Lemma registryPath_registry_witness :
  registryPath ("https://registry.npmjs.org/" ++ "plugin") = "/"
  /\ registryPath ("https://registry.npmjs.org/" ++ "plugin" ++ "/" ++ "latest")
     = "/" ++ "latest".
Proof.
  apply (registryPath_registry "plugin" "latest"). reflexivity.
Defined.

(** X4.  When the registry answers 200 with a document that has a name, a
    [dist-tags] value and a truthy tarball for the tagged version, the run
    is the fetch and the reading of the document followed by the unpacking
    of that tarball under the document's name; the [name] argument plays no
    part. *)
Theorem resolution_downloads_tagged_tarball
    w url name headers target doc plugin tags :
  isValidBaseUrl url = true ->
  includes url ".tgz" = false ->
  newURL w (registryPath url) "https://registry.npmjs.org/" = inr target ->
  fetch w target = inr (mkResponse 200 (inr doc)) ->
  Js.get doc "name" = Some plugin ->
  Js.get doc "dist-tags" = Some tags ->
  Js.nullish tags = false ->
  let tarball :=
    Js.getOpt
      (Js.getOpt
         (Js.getOpt (Js.getOpt doc "versions")
            (Js.toString (Js.ownProp tags "latest")))
         "dist")
      "tarball" in
  Js.truthy tarball = true ->
  npmUpload w url name headers
  = ((Fetch target :: ReadJson :: fst (unpack w tarball plugin headers))%list,
     snd (unpack w tarball plugin headers)).
Proof.
  intros Hbase Htgz Hurl Hfetch Hname Htags Hnn tarball Htruthy.
  unfold npmUpload. rewrite Hbase, Htgz. simpl.
  unfold resolve. rewrite registryPath_allowed. simpl. rewrite Hurl.
  eff_unfold. simpl. rewrite Hfetch. simpl.
  unfold Js.get in *. destruct (Js.nullish doc); [discriminate|].
  injection Hname as <-. injection Htags as <-. rewrite Hnn. simpl.
  fold tarball. rewrite Htruthy. simpl.
  destruct (unpack w tarball (Js.ownProp doc "name") headers). reflexivity.
Qed.

Lemma resolution_downloads_tagged_tarball_witness :
  let w := Scenario.registry (inr (mkResponse 200 (inr Fixture.published))) in
  npmUpload w "https://www.npmjs.com/package/plugin" "ignored" []
  = ((Fetch "https://registry.npmjs.org/plugin" :: ReadJson
        :: fst (unpack w (Js.Str Fixture.tarballUrl) (Js.Str "plugin") []))%list,
     snd (unpack w (Js.Str Fixture.tarballUrl) (Js.Str "plugin") [])).
Proof.
  apply (resolution_downloads_tagged_tarball
           (Scenario.registry (inr (mkResponse 200 (inr Fixture.published))))
           "https://www.npmjs.com/package/plugin" "ignored" []
           "https://registry.npmjs.org/plugin" Fixture.published
           (Js.Str "plugin") (Js.Obj [("latest", Js.Str "1.0.0")]));
    reflexivity.
Defined.

(** X5.  When the download directory holds no [.tar.gz] file, the run ends
    with "Tarball plugin file not found" right after the search: nothing is
    extracted, deleted or read. *)
Theorem missing_archive w tarball name headers path found :
  downloadUnzipTarball w tarball name headers = inr path ->
  findFileRec w path ".tar.gz" = inr found ->
  found = None \/ found = Some "" ->
  unpack w tarball name headers
  = ([DownloadUnzipTarball tarball name headers; FindFileRec path ".tar.gz"],
     Throws (Raised "Tarball plugin file not found")).
Proof.
  intros Hdown Hfind Hnone. unfold unpack. eff_unfold. simpl.
  rewrite Hdown. simpl. rewrite Hfind. simpl.
  destruct Hnone as [-> | ->]; reflexivity.
Qed.

Lemma missing_archive_witness :
  let w := Fixture.disk Scenario.notFound (inr "/tmp/plugin") (inr None)
             (inr tt) (inr tt) (inr Fixture.metadata) in
  unpack w (Js.Str Fixture.tarballUrl) (Js.Str "plugin") []
  = ([DownloadUnzipTarball (Js.Str Fixture.tarballUrl) (Js.Str "plugin") [];
      FindFileRec "/tmp/plugin" ".tar.gz"],
     Throws (Raised "Tarball plugin file not found")).
Proof.
  apply (missing_archive
           (Fixture.disk Scenario.notFound (inr "/tmp/plugin") (inr None)
              (inr tt) (inr tt) (inr Fixture.metadata))
           (Js.Str Fixture.tarballUrl) (Js.Str "plugin") [] "/tmp/plugin" None);
    [reflexivity | reflexivity | left; reflexivity].
Defined.

(** X6.  A failure of the extraction, or of the deletion of the [package]
    folder that follows it, reaches the caller wrapped in a new error, and
    the metadata is not read; a failed extraction also leaves the folder
    undeleted. *)
Theorem extraction_failure_is_wrapped w tarball name headers path file e :
  downloadUnzipTarball w tarball name headers = inr path ->
  findFileRec w path ".tar.gz" = inr (Some file) ->
  file <> "" ->
  (extractTarball w file path = inl e ->
   unpack w tarball name headers
   = ([DownloadUnzipTarball tarball name headers; FindFileRec path ".tar.gz";
       ExtractTarball file path],
      Throws (Wrapped e)))
  /\ (extractTarball w file path = inr tt ->
      deleteFolderFileSystem w (pathJoin w path "package") = inl e ->
      unpack w tarball name headers
      = ([DownloadUnzipTarball tarball name headers; FindFileRec path ".tar.gz";
          ExtractTarball file path;
          DeleteFolderFileSystem (pathJoin w path "package")],
         Throws (Wrapped e))).
Proof.
  intros Hdown Hfind Hfile.
  assert (Hsome : exists c rest, file = String c rest).
  { destruct file as [|c rest]; [contradiction | eauto]. }
  destruct Hsome as (c & rest & ->).
  split; [intros Hext | intros Hext Hdel];
    unfold unpack; eff_unfold; simpl; rewrite Hdown; simpl; rewrite Hfind;
    simpl; rewrite Hext; simpl; [reflexivity|].
  rewrite Hdel. reflexivity.
Qed.

Lemma extraction_failure_is_wrapped_witness :
  let w := Fixture.disk Scenario.notFound (inr "/tmp/plugin")
             (inr (Some "/tmp/plugin/plugin.tar.gz"))
             (inl Fixture.enospc) (inr tt) (inr Fixture.metadata) in
  unpack w (Js.Str Fixture.tarballUrl) (Js.Str "plugin") []
  = ([DownloadUnzipTarball (Js.Str Fixture.tarballUrl) (Js.Str "plugin") [];
      FindFileRec "/tmp/plugin" ".tar.gz";
      ExtractTarball "/tmp/plugin/plugin.tar.gz" "/tmp/plugin"],
     Throws (Wrapped Fixture.enospc)).
Proof.
  apply (extraction_failure_is_wrapped
           (Fixture.disk Scenario.notFound (inr "/tmp/plugin")
              (inr (Some "/tmp/plugin/plugin.tar.gz"))
              (inl Fixture.enospc) (inr tt) (inr Fixture.metadata))
           (Js.Str Fixture.tarballUrl) (Js.Str "plugin") [] "/tmp/plugin"
           "/tmp/plugin/plugin.tar.gz" Fixture.enospc);
    [reflexivity | reflexivity | discriminate | reflexivity].
Defined.

(** X7.  A failure of the download, of the search or of the metadata reader
    reaches the caller as it is, unwrapped, and stops the run there. *)
Theorem collaborator_failure_is_rethrown w tarball name headers e :
  (downloadUnzipTarball w tarball name headers = inl e ->
   unpack w tarball name headers
   = ([DownloadUnzipTarball tarball name headers], Throws (Rethrown e)))
  /\ (forall path,
        downloadUnzipTarball w tarball name headers = inr path ->
        findFileRec w path ".tar.gz" = inl e ->
        unpack w tarball name headers
        = ([DownloadUnzipTarball tarball name headers;
            FindFileRec path ".tar.gz"],
           Throws (Rethrown e)))
  /\ (forall path file,
        downloadUnzipTarball w tarball name headers = inr path ->
        findFileRec w path ".tar.gz" = inr (Some file) ->
        file <> "" ->
        extractTarball w file path = inr tt ->
        deleteFolderFileSystem w (pathJoin w path "package") = inr tt ->
        getPluginMetadata w path = inl e ->
        snd (unpack w tarball name headers) = Throws (Rethrown e)).
Proof.
  split; [|split].
  - intros Hdown. unfold unpack. eff_unfold. simpl. rewrite Hdown. reflexivity.
  - intros path Hdown Hfind. unfold unpack. eff_unfold. simpl.
    rewrite Hdown. simpl. rewrite Hfind. reflexivity.
  - intros path file Hdown Hfind Hfile Hext Hdel Hmeta.
    destruct file as [|c rest]; [contradiction|].
    unfold unpack. eff_unfold. simpl. rewrite Hdown. simpl. rewrite Hfind.
    simpl. rewrite Hext. simpl. rewrite Hdel. simpl. rewrite Hmeta.
    reflexivity.
Qed.

Lemma collaborator_failure_is_rethrown_witness :
  let w := Fixture.disk Scenario.notFound (inl Fixture.refused) (inr None)
             (inr tt) (inr tt) (inr Fixture.metadata) in
  unpack w (Js.Str Fixture.tarballUrl) (Js.Str "plugin") []
  = ([DownloadUnzipTarball (Js.Str Fixture.tarballUrl) (Js.Str "plugin") []],
     Throws (Rethrown Fixture.refused)).
Proof.
  apply (collaborator_failure_is_rethrown
           (Fixture.disk Scenario.notFound (inl Fixture.refused) (inr None)
              (inr tt) (inr tt) (inr Fixture.metadata))
           (Js.Str Fixture.tarballUrl) (Js.Str "plugin") [] Fixture.refused).
  reflexivity.
Defined.

Lemma unpack_returns w tarball name headers m :
  snd (unpack w tarball name headers) = Returns m ->
  exists path file,
    downloadUnzipTarball w tarball name headers = inr path
    /\ findFileRec w path ".tar.gz" = inr (Some file)
    /\ file <> ""
    /\ extractTarball w file path = inr tt
    /\ deleteFolderFileSystem w (pathJoin w path "package") = inr tt
    /\ getPluginMetadata w path = inr m
    /\ fst (unpack w tarball name headers)
       = [DownloadUnzipTarball tarball name headers;
          FindFileRec path ".tar.gz"; ExtractTarball file path;
          DeleteFolderFileSystem (pathJoin w path "package");
          GetPluginMetadata path].
Proof.
  unfold unpack. eff_unfold. simpl.
  destruct (downloadUnzipTarball w tarball name headers) as [e|path] eqn:Hdown;
    simpl; [discriminate|].
  destruct (findFileRec w path ".tar.gz") as [e|[[|c rest]|]] eqn:Hfind;
    simpl; try discriminate.
  destruct (extractTarball w (String c rest) path) as [e|[]] eqn:Hext;
    simpl; [discriminate|].
  destruct (deleteFolderFileSystem w (pathJoin w path "package")) as [e|[]]
    eqn:Hdel; simpl; [discriminate|].
  destruct (getPluginMetadata w path) as [e|m'] eqn:Hmeta;
    simpl; [discriminate|].
  intros Hm. injection Hm as Hm. subst m'.
  exists path, (String c rest).
  repeat split; try reflexivity; try assumption. discriminate.
Qed.

(** X8.  Whatever [npmUpload] returns is what the metadata reader gave for
    the directory of a download that succeeded, in which an archive was found,
    extracted, and whose [package] folder was deleted. *)
Theorem returned_metadata_is_read w url name headers m :
  snd (npmUpload w url name headers) = Returns m ->
  exists tarball plugin path file,
    In (DownloadUnzipTarball tarball plugin headers)
       (fst (npmUpload w url name headers))
    /\ downloadUnzipTarball w tarball plugin headers = inr path
    /\ findFileRec w path ".tar.gz" = inr (Some file)
    /\ file <> ""
    /\ extractTarball w file path = inr tt
    /\ deleteFolderFileSystem w (pathJoin w path "package") = inr tt
    /\ getPluginMetadata w path = inr m.
Proof.
  unfold npmUpload.
  destruct (isValidBaseUrl url); simpl; [|discriminate].
  set (target := if negb (includes url ".tgz") then resolve w url
                 else Eff.ret (Js.Str url, Js.Str name)).
  unfold Eff.bind. destruct target as [log [[tarball plugin]|t]];
    simpl; [|discriminate].
  pose proof (unpack_returns w tarball plugin headers m) as Hu.
  destruct (unpack w tarball plugin headers) as [log' r]. simpl in *.
  intros Hr. destruct (Hu Hr) as (path & file & H1 & H2 & H3 & H4 & H5 & H6 & Hlog).
  exists tarball, plugin, path, file. repeat split; try assumption.
  rewrite Hlog. apply in_or_app. right. left. reflexivity.
Qed.

Lemma returned_metadata_is_read_witness :
  let w := Scenario.registry Scenario.notFound in
  exists tarball plugin path file,
    In (DownloadUnzipTarball tarball plugin [])
       (fst (npmUpload w Fixture.tarballUrl "plugin" []))
    /\ downloadUnzipTarball w tarball plugin [] = inr path
    /\ findFileRec w path ".tar.gz" = inr (Some file)
    /\ file <> ""
    /\ extractTarball w file path = inr tt
    /\ deleteFolderFileSystem w (pathJoin w path "package") = inr tt
    /\ getPluginMetadata w path = inr (Js.Obj [("name", Js.Str "plugin")]).
Proof.
  apply (returned_metadata_is_read (Scenario.registry Scenario.notFound)
           Fixture.tarballUrl "plugin" [] (Js.Obj [("name", Js.Str "plugin")])).
  reflexivity.
Defined.

Lemma resolve_log w url :
  fst (resolve w url) = []
  \/ exists target,
       fst (resolve w url) = [Fetch target]
       \/ fst (resolve w url) = [Fetch target; ReadJson].
Proof.
  unfold resolve. rewrite registryPath_allowed. eff_unfold.
  eff_cases; simpl; eauto.
Qed.

(** X9.  No run of [npmUpload] fetches more than once or downloads more than
    once. *)
Theorem at_most_one_fetch_and_download w url name headers :
  List.length (filter isFetch (fst (npmUpload w url name headers))) <= 1
  /\ List.length (filter isDownload (fst (npmUpload w url name headers))) <= 1.
Proof.
  unfold npmUpload.
  destruct (isValidBaseUrl url); simpl; [|split; lia].
  destruct (includes url ".tgz"); simpl.
  - destruct (unpack_log w (Js.Str url) (Js.Str name) headers)
      as (rest & Hlog & Hf & Hd).
    destruct (unpack w (Js.Str url) (Js.Str name) headers) as [log r].
    simpl in *. subst log. simpl. rewrite Hd.
    assert (Hnone : filter isFetch rest = []).
    { clear -Hf. induction rest as [|x rest IH]; [reflexivity|].
      simpl in *. destruct (isFetch x); [discriminate | auto]. }
    rewrite Hnone. simpl. split; lia.
  - pose proof (resolve_log w url) as Hpre. unfold Eff.bind.
    destruct (resolve w url) as [pre [[tarball plugin]|t]]; simpl in *.
    + destruct (unpack_log w tarball plugin headers) as (rest & Hlog & Hf & Hd).
      destruct (unpack w tarball plugin headers) as [log r].
      simpl in *. subst log. rewrite !filter_app. simpl. rewrite Hd.
      assert (Hnone : filter isFetch rest = []).
      { clear -Hf. induction rest as [|x rest IH]; [reflexivity|].
        simpl in *. destruct (isFetch x); [discriminate | auto]. }
      rewrite Hnone, !length_app. simpl.
      destruct Hpre as [-> | (target & [-> | ->])]; simpl; split; lia.
    + destruct Hpre as [-> | (target & [-> | ->])]; simpl; split; lia.
Qed.

End NpmMore.

(* ===================================================================== *)
(** * The test request wrapper: further properties of [_requestRaw] *)
(* ===================================================================== *)

Module TestApiMore.
Import JsString TestApi TestApiFacts TestApiShape.
Local Arguments Eff.bind : simpl never.
Local Arguments Nat.sub : simpl never.

Lemma expecting_snoc req entry rest :
  expecting (expecting req [entry]) rest = expecting req (entry :: rest).
Proof.
  unfold expecting. simpl. rewrite <- app_assoc. reflexivity.
Qed.

Lemma expecting_nil req : expecting req [] = req.
Proof. destruct req. unfold expecting. simpl. rewrite app_nil_r. reflexivity. Qed.

Lemma expectAll_returns entries : forall req req',
  snd (expectAll req entries) = Returns req' -> req' = expecting req entries.
Proof.
  induction entries as [|[key value] rest IH]; intros req req'; simpl.
  - intros [= <-]. symmetry. apply expecting_nil.
  - destruct value; simpl; try discriminate; intros H; apply IH in H;
      rewrite H; apply expecting_snoc.
Qed.

Lemma expectAll_defined entries : forall req,
  forallb (fun entry => isDefined (snd entry)) entries = true ->
  expectAll req entries = ([], Returns (expecting req entries)).
Proof.
  induction entries as [|[key value] rest IH]; intros req; simpl.
  - rewrite expecting_nil. reflexivity.
  - intros H. apply andb_true_iff in H as [Hv Hrest].
    destruct value; simpl in *; try discriminate;
      rewrite IH by exact Hrest; rewrite <- expecting_snoc; reflexivity.
Qed.

Lemma build_returns w method url opts attempt req :
  snd (build w method url opts attempt) = Returns req ->
  exists auth,
    getHeaders w attempt opts stacktraceHeader = inr auth
    /\ req = requestOf method (withQuery url (queryOf opts)) opts auth.
Proof.
  rewrite build_unfold. simpl.
  destruct (getHeaders w attempt opts stacktraceHeader) as [e|auth]; simpl;
    [discriminate|].
  intros H. apply expectAll_returns in H. exists auth. split; [reflexivity|].
  exact H.
Qed.

Lemma build_succeeds w method url opts attempt auth :
  getHeaders w attempt (afterDefaults opts) stacktraceHeader = inr auth ->
  allDefined opts = true ->
  build w method url (afterDefaults opts) attempt
  = ([GetHeaders attempt],
     Returns (requestOf method (withQuery url (queryOf opts))
                (afterDefaults opts) auth)).
Proof.
  intros Hauth Hdef. rewrite build_unfold. cbv zeta. rewrite Hauth.
  unfold allDefined, orEmpty in Hdef.
  rewrite (expectAll_defined _ _ Hdef). simpl.
  rewrite queryOf_afterDefaults. reflexivity.
Qed.

Lemma allDefined_afterDefaults opts :
  allDefined (afterDefaults opts) = allDefined opts.
Proof. unfold allDefined. rewrite afterDefaults_idem. reflexivity. Qed.

Lemma in_sent_app req l1 l2 :
  In req (sent (l1 ++ l2)) <-> In req (sent l1) \/ In req (sent l2).
Proof. rewrite sent_app. apply in_app_iff. Qed.

Lemma recovers_from w method n resp :
  n <= 3 ->
  (forall k req, k < n ->
     exists e, transport w k req = inl e /\ isConnectionReset e = true) ->
  (forall req, transport w n req = inr resp) ->
  forall d opts attempt url,
    (forall k, k <= n ->
       exists auth,
         getHeaders w k (afterDefaults opts) stacktraceHeader = inr auth) ->
    allDefined opts = true ->
    n - attempt = d -> attempt <= n ->
    snd (_requestRaw w method url opts attempt) = Returns resp
    /\ List.length (sent (fst (_requestRaw w method url opts attempt))) = S d.
Proof.
  intros Hn Hreset Hok.
  induction d as [|d IH]; intros opts attempt url Hauth Hdef Hd Hle;
    rewrite requestRaw_unfold;
    destruct (Hauth attempt Hle) as [auth Ha];
    rewrite (build_succeeds w method url opts attempt auth Ha Hdef).
  - assert (attempt = n) by lia. subst attempt. rewrite Hok. simpl.
    split; reflexivity.
  - assert (Hlt : attempt < n) by lia.
    destruct (Hreset attempt
                (requestOf method (withQuery url (queryOf opts))
                   (afterDefaults opts) auth) Hlt) as (e & -> & ->).
    assert (Hnot : Nat.ltb 2 attempt = false) by (apply Nat.ltb_ge; lia).
    rewrite Hnot. simpl. rewrite bind_logged. cbn [fst snd].
    destruct (IH (afterDefaults opts) (attempt + 1)
                (withQuery url (queryOf opts))) as [Hsnd Hlen].
    + rewrite afterDefaults_idem. exact Hauth.
    + rewrite allDefined_afterDefaults. exact Hdef.
    + lia.
    + lia.
    + split; [exact Hsnd|].
      rewrite sent_app, length_app, Hlen. reflexivity.
Qed.

(** X10.  When the attempts before the [n]-th are reset and the [n]-th is
    answered, for an [n] of at most 3, the call returns that answer after
    exactly [n + 1] requests: the resets are not seen by the caller. *)
Theorem retry_recovers w method url opts n resp :
  n <= 3 ->
  (forall k, k <= n ->
     exists auth,
       getHeaders w k (afterDefaults opts) stacktraceHeader = inr auth) ->
  allDefined opts = true ->
  (forall k req, k < n ->
     exists e, transport w k req = inl e /\ isConnectionReset e = true) ->
  (forall req, transport w n req = inr resp) ->
  snd (_requestRaw w method url opts 0) = Returns resp
  /\ List.length (sent (fst (_requestRaw w method url opts 0))) = S n.
Proof.
  intros Hn Hauth Hdef Hreset Hok.
  apply (recovers_from w method n resp Hn Hreset Hok n opts 0 url Hauth Hdef);
    lia.
Qed.

Lemma retry_recovers_witness :
  let w := mkWorld (fun _ _ _ => inr []) (Fixture.resetUntil 3 Scenario.ok) in
  snd (_requestRaw w PUT "/api/tables" None 0) = Returns Scenario.ok
  /\ List.length (sent (fst (_requestRaw w PUT "/api/tables" None 0))) = 4.
Proof.
  apply (retry_recovers
           (mkWorld (fun _ _ _ => inr []) (Fixture.resetUntil 3 Scenario.ok))
           PUT "/api/tables" None 3 Scenario.ok).
  - lia.
  - intros k _. exists []. reflexivity.
  - reflexivity.
  - intros k req Hk. exists Scenario.connReset.
    simpl. unfold Fixture.resetUntil.
    apply Nat.ltb_lt in Hk. rewrite Hk. split; reflexivity.
  - intros req. reflexivity.
Defined.

(** X11.  A transport failure whose code is not ECONNRESET is never
    retried: the one request of the attempt is the last, and the failure
    reaches the caller as it is. *)
Theorem other_failures_not_retried w method url opts attempt auth e :
  getHeaders w attempt (afterDefaults opts) stacktraceHeader = inr auth ->
  allDefined opts = true ->
  let req :=
    requestOf method (withQuery url (queryOf opts)) (afterDefaults opts) auth in
  transport w attempt req = inl e ->
  isConnectionReset e = false ->
  _requestRaw w method url opts attempt
  = ([GetHeaders attempt; Send req], Throws (Rethrown e)).
Proof.
  intros Hauth Hdef req Hfail Hcode. rewrite requestRaw_unfold.
  rewrite (build_succeeds w method url opts attempt auth Hauth Hdef).
  fold req. rewrite Hfail, Hcode. reflexivity.
Qed.

Lemma other_failures_not_retried_witness :
  let w := mkWorld (fun _ _ _ => inr []) (fun _ _ => inl Fixture.refused) in
  _requestRaw w GET "/api/tables" None 0
  = ([GetHeaders 0; Send (requestOf GET "/api/tables" None [])],
     Throws (Rethrown Fixture.refused)).
Proof.
  apply (other_failures_not_retried
           (mkWorld (fun _ _ _ => inr []) (fun _ _ => inl Fixture.refused))
           GET "/api/tables" None 0 [] Fixture.refused); reflexivity.
Defined.

(** X12.  A failure of [getHeaders] ends the call before anything is sent
    and is not retried, whatever its code: the retry of line 161 covers the
    awaited request only. *)
Theorem header_failure_not_retried w method url opts attempt e :
  getHeaders w attempt (afterDefaults opts) stacktraceHeader = inl e ->
  _requestRaw w method url opts attempt
  = ([GetHeaders attempt], Throws (Rethrown e)).
Proof.
  intros Hfail. rewrite requestRaw_unfold, build_unfold. cbv zeta.
  rewrite Hfail. reflexivity.
Qed.

Lemma header_failure_not_retried_witness :
  let w := mkWorld (fun _ _ _ => inl Scenario.connReset) (fun _ _ => inr Scenario.ok) in
  isConnectionReset Scenario.connReset = true
  /\ _requestRaw w GET "/api/tables" None 0
     = ([GetHeaders 0], Throws (Rethrown Scenario.connReset)).
Proof.
  split; [reflexivity|].
  apply (header_failure_not_retried
           (mkWorld (fun _ _ _ => inl Scenario.connReset)
              (fun _ _ => inr Scenario.ok))
           GET "/api/tables" None 0 Scenario.connReset).
  reflexivity.
Defined.

Lemma sent_shape w method : forall k opts attempt url,
  3 - attempt <= k ->
  forall req,
    In req (sent (fst (_requestRaw w method url opts attempt))) ->
    exists u auth, req = requestOf method u (afterDefaults opts) auth.
Proof.
  induction k as [|k IH]; intros opts attempt url Hk req;
    rewrite requestRaw_unfold;
    pose proof (build_sent w method url (afterDefaults opts) attempt) as Hb;
    pose proof (build_returns w method url (afterDefaults opts) attempt) as Hr;
    destruct (build w method url (afterDefaults opts) attempt)
      as [log [req0|t]]; simpl in Hb, Hr |- *;
    try (rewrite Hb; simpl; tauto);
    destruct (Hr req0 eq_refl) as (auth & _ & Hreq0);
    (assert (Hfirst : In req (sent (log ++ [Send req0])) ->
                      exists u auth, req = requestOf method u (afterDefaults opts) auth)
      by (rewrite sent_app, Hb; simpl; intros [<-|[]]; eauto));
    destruct (transport w attempt req0) as [e|resp]; simpl; try exact Hfirst;
    destruct (isConnectionReset e); simpl; try exact Hfirst;
    destruct (Nat.ltb 2 attempt) eqn:Hlt; simpl; try exact Hfirst;
    apply Nat.ltb_ge in Hlt; [lia|].
  rewrite bind_logged. simpl. rewrite in_sent_app. intros [Hin|Hin].
  - exact (Hfirst Hin).
  - apply IH in Hin; [|lia]. rewrite afterDefaults_idem in Hin. exact Hin.
Qed.

(** X13.  Every request of a call, first attempt or retry, is the one built
    from the call's method and options: same method, headers of the caller,
    body, fields, attachments and declared expectations; only the URL and
    the authentication headers are those of the attempt. *)
Theorem attempts_share_request w method url opts attempt req :
  In req (sent (fst (_requestRaw w method url opts attempt))) ->
  exists u auth, req = requestOf method u (afterDefaults opts) auth.
Proof.
  apply (sent_shape w method (3 - attempt) opts attempt url). lia.
Qed.

Lemma sent_requestOf w method url opts attempt req :
  In req (sent (fst (_requestRaw w method url opts attempt))) ->
  exists u auth, req = requestOf method u (afterDefaults opts) auth.
Proof.
  apply (sent_shape w method (3 - attempt) opts attempt url). lia.
Qed.

Lemma attempts_share_request_witness :
  let req := requestOf GET "/api/rows?tableId=ta_1?tableId=ta_1"
               (Scenario.withQueryOpts [("tableId", Some "ta_1")]) [] in
  exists u auth,
    req = requestOf GET u
            (afterDefaults (Scenario.withQueryOpts [("tableId", Some "ta_1")]))
            auth.
Proof.
  apply (attempts_share_request Scenario.resetOnce GET "/api/rows"
           (Scenario.withQueryOpts [("tableId", Some "ta_1")]) 0).
  simpl. right. left. reflexivity.
Defined.

Lemma same_url w method url : forall k opts attempt,
  existsb truthyPair (queryOf opts) = false ->
  3 - attempt <= k ->
  forall req,
    In req (sent (fst (_requestRaw w method url opts attempt))) ->
    req_url req = url.
Proof.
  induction k as [|k IH]; intros opts attempt Hq Hk req;
    (assert (Hurl : withQuery url (queryOf opts) = url)
      by (rewrite withQuery_spec; unfold queryUrlSpec; rewrite Hq; reflexivity));
    rewrite requestRaw_unfold;
    pose proof (build_sent w method url (afterDefaults opts) attempt) as Hb;
    pose proof (build_url w method url (afterDefaults opts) attempt) as Hu;
    destruct (build w method url (afterDefaults opts) attempt)
      as [log [req0|t]]; simpl in Hb, Hu |- *;
    try (rewrite Hb; simpl; tauto);
    specialize (Hu req0 eq_refl);
    rewrite queryOf_afterDefaults, Hurl in Hu;
    (assert (Hfirst : In req (sent (log ++ [Send req0])) -> req_url req = url)
      by (rewrite sent_app, Hb; simpl; intros [<-|[]]; exact Hu));
    destruct (transport w attempt req0) as [e|resp]; simpl; try exact Hfirst;
    destruct (isConnectionReset e); simpl; try exact Hfirst;
    destruct (Nat.ltb 2 attempt) eqn:Hlt; simpl; try exact Hfirst;
    apply Nat.ltb_ge in Hlt; [lia|].
  rewrite bind_logged. simpl. rewrite in_sent_app, Hurl. intros [Hin|Hin].
  - exact (Hfirst Hin).
  - apply IH in Hin; [exact Hin | | lia].
    rewrite queryOf_afterDefaults. exact Hq.
Qed.

(** X14.  When no pair of [opts.query] is truthy (or there is no query),
    every request of the call, retries included, goes to the URL the caller
    gave. *)
Theorem no_query_same_url w method url opts attempt req :
  existsb truthyPair (queryOf opts) = false ->
  In req (sent (fst (_requestRaw w method url opts attempt))) ->
  req_url req = url.
Proof.
  intros Hq. apply (same_url w method url (3 - attempt) opts attempt Hq). lia.
Qed.

Lemma no_query_same_url_witness :
  let opts := Scenario.withQueryOpts [("tableId", None); ("view", Some "")] in
  req_url (requestOf GET "/api/tables" opts []) = "/api/tables".
Proof.
  apply (no_query_same_url Scenario.alwaysReset GET "/api/tables"
           (Scenario.withQueryOpts [("tableId", None); ("view", Some "")]) 0
           (requestOf GET "/api/tables"
              (Scenario.withQueryOpts [("tableId", None); ("view", Some "")]) [])).
  - reflexivity.
  - simpl. do 3 right. left. reflexivity.
Defined.

Lemma setProp_absent {A} k (v : A) l :
  Js.assoc k l = None -> setProp k v l = (l ++ [(k, v)])%list.
Proof.
  induction l as [|[k' v'] l IH]; simpl; [reflexivity|].
  destruct (String.eqb k' k); [discriminate|].
  intros H. rewrite IH by exact H. reflexivity.
Qed.

Lemma requestOf_expect method u opts auth :
  req_expect (requestOf method u opts auth) = declaredHeaders (orEmpty opts).
Proof. reflexivity. Qed.

(** X15.  When the caller passes no [expectations.headers] object, the
    requests of the call declare no header expectation at all: the default
    [Content-Type] pattern of line 101 is set on an object nobody reads. *)
Theorem no_headers_no_expectation w method url opts attempt req :
  (forall o e, opts = Some o -> expectations o = Some e -> exp_headers e = None) ->
  In req (sent (fst (_requestRaw w method url opts attempt))) ->
  req_expect req = [].
Proof.
  intros Hnone Hin.
  destruct (sent_requestOf w method url opts attempt req Hin)
    as (u & auth & ->).
  rewrite requestOf_expect. destruct opts as [o|]; [|reflexivity]. simpl.
  unfold declaredHeaders. simpl.
  destruct (expectations o) as [e|] eqn:He; [|reflexivity]. simpl.
  specialize (Hnone o e eq_refl He).
  unfold defaultContentType. rewrite Hnone. simpl. rewrite Hnone. reflexivity.
Qed.

Lemma no_headers_no_expectation_witness :
  req_expect (requestOf GET "/api/tables" None []) = [].
Proof.
  apply (no_headers_no_expectation Scenario.reliable GET "/api/tables" None 0
           (requestOf GET "/api/tables" None [])).
  - intros o e Ho. discriminate Ho.
  - simpl. left. reflexivity.
Defined.

(** X16.  When the caller passes an [expectations.headers] object without
    [Content-Type], the requests of the call declare the caller's entries
    followed by [Content-Type] with the JSON pattern, unless the expected
    status is 204, in which case they declare the caller's entries alone. *)
Theorem content_type_default w method url o e hs attempt req :
  expectations o = Some e ->
  exp_headers e = Some hs ->
  Js.assoc "Content-Type" hs = None ->
  In req (sent (fst (_requestRaw w method url (Some o) attempt))) ->
  req_expect req
  = if (expectedStatus (Some e) =? 204)%Z then hs
    else (hs ++ [("Content-Type", jsonContentType)])%list.
Proof.
  intros He Hhs Hct Hin.
  destruct (sent_requestOf w method url (Some o) attempt req Hin)
    as (u & auth & ->).
  rewrite requestOf_expect.
  assert (Hdecl : declaredHeaders (orEmpty (afterDefaults (Some o)))
                  = match exp_headers (defaultContentType e) with
                    | Some declared => declared
                    | None => []
                    end).
  { unfold declaredHeaders. simpl. rewrite He. reflexivity. }
  rewrite Hdecl. unfold defaultContentType. rewrite Hhs, Hct, andb_true_r.
  destruct (expectedStatus (Some e) =? 204)%Z; simpl.
  - rewrite Hhs. reflexivity.
  - rewrite (setProp_absent _ _ _ Hct). reflexivity.
Qed.

Lemma content_type_default_witness :
  let hs := [("x-request-id", ExpRegExp "^[0-9a-f]+$")] in
  let sent_request :=
    requestOf GET "/api/tables"
      (afterDefaults (Some (Scenario.withExpectedHeaders None hs))) [] in
  req_expect sent_request = (hs ++ [("Content-Type", jsonContentType)])%list.
Proof.
  apply (content_type_default Scenario.reliable GET "/api/tables"
           (Scenario.withExpectedHeaders None
              [("x-request-id", ExpRegExp "^[0-9a-f]+$")])
           (mkExpectations None
              (Some [("x-request-id", ExpRegExp "^[0-9a-f]+$")]) None None)
           [("x-request-id", ExpRegExp "^[0-9a-f]+$")] 0
           (requestOf GET "/api/tables"
              (afterDefaults
                 (Some (Scenario.withExpectedHeaders None
                          [("x-request-id", ExpRegExp "^[0-9a-f]+$")]))) []));
    try reflexivity.
  simpl. left. reflexivity.
Defined.

Lemma withQuery_extends url query : exists rest, withQuery url query = url ++ rest.
Proof.
  rewrite withQuery_spec. unfold queryUrlSpec.
  destruct (existsb truthyPair query).
  - eexists. reflexivity.
  - exists "". symmetry. apply JsStringMore.append_nil_r.
Qed.

Lemma url_extends w method : forall k opts attempt url,
  3 - attempt <= k ->
  forall req,
    In req (sent (fst (_requestRaw w method url opts attempt))) ->
    exists rest, req_url req = url ++ rest.
Proof.
  induction k as [|k IH]; intros opts attempt url Hk req;
    rewrite requestRaw_unfold;
    pose proof (build_sent w method url (afterDefaults opts) attempt) as Hb;
    pose proof (build_url w method url (afterDefaults opts) attempt) as Hu;
    destruct (build w method url (afterDefaults opts) attempt)
      as [log [req0|t]]; simpl in Hb, Hu |- *;
    try (rewrite Hb; simpl; tauto);
    specialize (Hu req0 eq_refl);
    rewrite queryOf_afterDefaults in Hu;
    destruct (withQuery_extends url (queryOf opts)) as [ext Hext];
    (assert (Hfirst : In req (sent (log ++ [Send req0])) ->
                      exists rest, req_url req = url ++ rest)
      by (rewrite sent_app, Hb; simpl; intros [<-|[]];
          exists ext; rewrite Hu; exact Hext));
    destruct (transport w attempt req0) as [e|resp]; simpl; try exact Hfirst;
    destruct (isConnectionReset e); simpl; try exact Hfirst;
    destruct (Nat.ltb 2 attempt) eqn:Hlt; simpl; try exact Hfirst;
    apply Nat.ltb_ge in Hlt; [lia|].
  rewrite bind_logged. simpl. rewrite in_sent_app. intros [Hin|Hin].
  - exact (Hfirst Hin).
  - apply IH in Hin; [|lia]. destruct Hin as [rest Hrest].
    exists (ext ++ rest). rewrite Hrest, Hext.
    apply JsStringMore.append_assoc.
Qed.

End TestApiMore.

(* ===================================================================== *)
(** * The test request wrapper: response check, headers and verbs *)
(* ===================================================================== *)

Module TestApiClientMore.
Import JsString JsStringMore TestApi TestApiFacts TestApiShape TestApiMore.
Import TestApiClient.
Local Arguments Eff.bind : simpl never.

Lemma bind_ret {A B} (a : A) (k : A -> Eff.t Event B) :
  Eff.bind (Eff.ret a) k = k a.
Proof. unfold Eff.bind, Eff.ret. destruct (k a). reflexivity. Qed.

Lemma bind_nil {A B} (a : A) (k : A -> Eff.t Event B) :
  Eff.bind ([], Returns a) k = k a.
Proof. exact (bind_ret a k). Qed.

Lemma bind_throw {A B} log (t : Thrown) (k : A -> Eff.t Event B) :
  Eff.bind (log, Throws t) k = (log, Throws t).
Proof. reflexivity. Qed.

Lemma appendLines_extends lines : forall message,
  exists rest, appendLines message lines = message ++ rest.
Proof.
  unfold appendLines.
  induction lines as [|line lines IH]; intros message; cbn [fold_left].
  - exists "". symmetry. apply append_nil_r.
  - destruct (IH (message ++ String newline "" ++ bar ++ " " ++ line))
      as [rest Hrest].
    rewrite Hrest. eexists. apply append_assoc.
Qed.

Lemma statusFailure_message m status response :
  Js.nullish (resp_body response) = false ->
  (Js.truthy (Js.ownProp (resp_body response) "stack") = false
   \/ exists trace, Js.ownProp (resp_body response) "stack" = Js.Str trace) ->
  exists rest,
    statusFailure m status response
    = ([], Throws (Raised (statusMessage status (TestApi.status response) ++ rest))).
Proof.
  intros Hbody Hstack. unfold statusFailure, Eff.prop, Js.get.
  rewrite Hbody, bind_ret.
  generalize (statusMessage status (TestApi.status response)). intros msg.
  assert (Hmsg : exists r1,
            (if Js.truthy (deleteProp "stack" (resp_body response))
             then appendLines (msg ++ String newline (String newline "Body:"))
                    (split (stringify m (deleteProp "stack" (resp_body response)))
                           newline)
             else msg) = msg ++ r1).
  { destruct (Js.truthy (deleteProp "stack" (resp_body response))).
    - destruct (appendLines_extends
                  (split (stringify m (deleteProp "stack" (resp_body response)))
                         newline)
                  (msg ++ String newline (String newline "Body:"))) as [r Hr].
      rewrite Hr. eexists. apply append_assoc.
    - exists "". symmetry. apply append_nil_r. }
  destruct Hmsg as [r1 ->].
  destruct Hstack as [Hfalsy | [trace Htrace]].
  - rewrite Hfalsy. eexists. reflexivity.
  - rewrite Htrace. destruct (Js.truthy (Js.Str trace)).
    + destruct (appendLines_extends (split trace newline)
                  ((msg ++ r1)
                   ++ String newline (String newline "Stack from request handler:")))
        as [r2 Hr2].
      unfold Eff.throw. rewrite Hr2, !append_assoc. eexists. reflexivity.
    + eexists. reflexivity.
Qed.

(** X17.  A response whose status differs from the expected one (200 when
    none is given) makes the check throw an error whose message starts with
    "Expected status <expected> but got <actual>", whatever the headers the
    caller wanted absent and the body it expected; this for a response with
    a body and a [stack] that is a string or falsy. *)
Theorem status_mismatch_message m response expectations :
  TestApi.status response <> expectedStatus expectations ->
  Js.nullish (resp_body response) = false ->
  (Js.truthy (Js.ownProp (resp_body response) "stack") = false
   \/ exists trace, Js.ownProp (resp_body response) "stack" = Js.Str trace) ->
  exists rest,
    _checkResponse m response expectations
    = ([], Throws (Raised ("Expected status " ++ ofZ (expectedStatus expectations)
                           ++ " but got " ++ ofZ (TestApi.status response)
                           ++ rest))).
Proof.
  intros Hstatus Hbody Hstack. unfold _checkResponse.
  apply Z.eqb_neq in Hstatus. rewrite Hstatus. cbn [negb].
  destruct (statusFailure_message m (expectedStatus expectations) response
              Hbody Hstack) as [rest ->].
  exists rest. unfold statusMessage. rewrite !append_assoc. reflexivity.
Qed.

Lemma status_mismatch_message_witness :
  exists rest,
    _checkResponse Fixture.matchers
      (mkResponse 201 [] (Js.Obj [("_id", Js.Str "ta_1")])) None
    = ([], Throws (Raised ("Expected status " ++ ofZ 200 ++ " but got " ++ ofZ 201
                           ++ rest))).
Proof.
  apply (status_mismatch_message Fixture.matchers
           (mkResponse 201 [] (Js.Obj [("_id", Js.Str "ta_1")])) None).
  - simpl. discriminate.
  - reflexivity.
  - left. reflexivity.
Defined.

Lemma checkAbsent_present headers names : forall header value,
  In header names ->
  Js.assoc header headers = Some value ->
  value <> "" ->
  exists h v,
    In h names /\ Js.assoc h headers = Some v /\ v <> ""
    /\ checkAbsent headers names
       = ([], Throws (Raised (presentHeaderMessage h v))).
Proof.
  induction names as [|name names IH]; intros header value Hin Hval Hne;
    [contradiction|]. simpl.
  destruct (Js.assoc name headers) as [v|] eqn:Hname.
  - destruct (String.eqb v "") eqn:Hv; simpl.
    + destruct Hin as [->|Hin].
      * apply String.eqb_eq in Hv. congruence.
      * destruct (IH header value Hin Hval Hne) as (h & v' & H1 & H2 & H3 & H4).
        exists h, v'. auto.
    + exists name, v. repeat split; auto.
      apply String.eqb_neq. exact Hv.
  - destruct Hin as [->|Hin]; [congruence|].
    destruct (IH header value Hin Hval Hne) as (h & v' & H1 & H2 & H3 & H4).
    exists h, v'. auto.
Qed.

Lemma checkAbsent_absent headers names :
  allAbsent headers names = true -> checkAbsent headers names = ([], Returns tt).
Proof.
  unfold allAbsent. induction names as [|name names IH]; simpl; [reflexivity|].
  intros H. apply andb_true_iff in H as [Hname Hrest].
  destruct (Js.assoc name headers) as [v|]; [rewrite Hname; simpl|]; auto.
Qed.

(** X18.  With the expected status, a response that carries a non-empty
    value for a header listed in [headersNotPresent] makes the check throw
    "Expected header <name> not to be present, found value ..." for such a
    header, before the expected body is looked at. *)
Theorem forbidden_header_present m response e names header value :
  TestApi.status response = expectedStatus (Some e) ->
  exp_headersNotPresent e = Some names ->
  In header names ->
  Js.assoc header (resp_headers response) = Some value ->
  value <> "" ->
  exists h v,
    In h names /\ Js.assoc h (resp_headers response) = Some v /\ v <> ""
    /\ _checkResponse m response (Some e)
       = ([], Throws (Raised (presentHeaderMessage h v))).
Proof.
  intros Hstatus Hnames Hin Hval Hne. unfold _checkResponse.
  rewrite Hstatus, Z.eqb_refl, Hnames. cbn [negb].
  destruct (checkAbsent_present (resp_headers response) names header value
              Hin Hval Hne) as (h & v & H1 & H2 & H3 & ->).
  exists h, v. rewrite bind_throw. auto.
Qed.

Lemma forbidden_header_present_witness :
  let e := mkExpectations None None (Some ["x-foo"]) None in
  let response := mkResponse 200 [("x-foo", "bar")] (Js.Obj []) in
  exists h v,
    In h ["x-foo"] /\ Js.assoc h (resp_headers response) = Some v /\ v <> ""
    /\ _checkResponse Fixture.matchers response (Some e)
       = ([], Throws (Raised (presentHeaderMessage h v))).
Proof.
  apply (forbidden_header_present Fixture.matchers
           (mkResponse 200 [("x-foo", "bar")] (Js.Obj []))
           (mkExpectations None None (Some ["x-foo"]) None)
           ["x-foo"] "x-foo" "bar").
  - reflexivity.
  - reflexivity.
  - left. reflexivity.
  - reflexivity.
  - discriminate.
Defined.

Lemma checkResponse_passes m response expectations :
  TestApi.status response = expectedStatus expectations ->
  (forall e names,
     expectations = Some e -> exp_headersNotPresent e = Some names ->
     allAbsent (resp_headers response) names = true) ->
  (forall e expected,
     expectations = Some e -> exp_body e = Some expected ->
     Js.truthy expected = true ->
     toMatchObject m (resp_body response) expected = None) ->
  _checkResponse m response expectations = ([], Returns response).
Proof.
  intros Hstatus Habsent Hbody. unfold _checkResponse.
  rewrite Hstatus, Z.eqb_refl. cbn [negb].
  destruct expectations as [e|];
    [|cbn [checkAbsent]; rewrite bind_ret; reflexivity].
  assert (Hloop : checkAbsent (resp_headers response)
                    match exp_headersNotPresent e with
                    | Some names => names
                    | None => []
                    end = Eff.ret tt).
  { destruct (exp_headersNotPresent e) as [names|] eqn:Hn; [|reflexivity].
    apply checkAbsent_absent. apply (Habsent e names eq_refl Hn). }
  rewrite Hloop, bind_ret.
  destruct (exp_body e) as [expected|] eqn:Hexp; [|reflexivity].
  destruct (Js.truthy expected) eqn:Ht; [|reflexivity].
  rewrite (Hbody e expected eq_refl Hexp Ht). reflexivity.
Qed.

(** X19.  A response with the expected status, without a non-empty value
    for any header the caller wanted absent, and whose body the matcher
    accepts when a body is expected, comes out of the check as it went
    in. *)
Theorem check_returns_response m response expectations :
  TestApi.status response = expectedStatus expectations ->
  (forall e names,
     expectations = Some e -> exp_headersNotPresent e = Some names ->
     allAbsent (resp_headers response) names = true) ->
  (forall e expected,
     expectations = Some e -> exp_body e = Some expected ->
     Js.truthy expected = true ->
     toMatchObject m (resp_body response) expected = None) ->
  _checkResponse m response expectations = ([], Returns response).
Proof. exact (checkResponse_passes m response expectations). Qed.

Lemma check_returns_response_witness :
  let e := mkExpectations (Some 204%Z) None (Some ["x-foo"; "set-cookie"])
             (Some (Js.Obj [])) in
  let response := mkResponse 204 [("x-foo", "")] Js.Null in
  _checkResponse Fixture.matchers response (Some e) = ([], Returns response).
Proof.
  apply (check_returns_response Fixture.matchers
           (mkResponse 204 [("x-foo", "")] Js.Null)
           (Some (mkExpectations (Some 204%Z) None (Some ["x-foo"; "set-cookie"])
                    (Some (Js.Obj []))))).
  - reflexivity.
  - intros e names [= <-] [= <-]. reflexivity.
  - intros e expected [= <-] [= <-] _. reflexivity.
Defined.

Lemma bind_returns {A B} log (a : A) (k : A -> Eff.t Event B) :
  Eff.bind (log, Returns a) k = ((log ++ fst (k a))%list, snd (k a)).
Proof. unfold Eff.bind. destruct (k a). reflexivity. Qed.

Lemma checkAbsent_cases headers names :
  (exists t, checkAbsent headers names = ([], Throws t))
  \/ checkAbsent headers names = ([], Returns tt).
Proof.
  induction names as [|name names IH]; simpl; [right; reflexivity|].
  destruct (Js.assoc name headers) as [v|]; [|exact IH].
  destruct (negb (String.eqb v "")); [left; eexists; reflexivity | exact IH].
Qed.

Lemma statusFailure_throws m status response :
  exists t, statusFailure m status response = ([], Throws t).
Proof.
  unfold statusFailure, Eff.prop.
  destruct (Js.get (resp_body response) "stack") as [stack|].
  - rewrite bind_ret. destruct (Js.truthy stack); [|eexists; reflexivity].
    destruct stack; eexists; reflexivity.
  - eexists. reflexivity.
Qed.

(** The check is a filter: it throws or hands back its argument. *)
Lemma checkResponse_cases m response expectations :
  (exists t, _checkResponse m response expectations = ([], Throws t))
  \/ _checkResponse m response expectations = ([], Returns response).
Proof.
  unfold _checkResponse.
  destruct (negb (TestApi.status response =? expectedStatus expectations)%Z).
  - left. apply statusFailure_throws.
  - match goal with
    | |- context [checkAbsent ?h ?n] =>
        destruct (checkAbsent_cases h n) as [[t ->] | ->]
    end; [left; eexists; reflexivity|].
    rewrite ?bind_nil, ?bind_ret.
    destruct expectations as [e|]; [|right; reflexivity].
    destruct (exp_body e) as [expected|]; [|right; reflexivity].
    destruct (Js.truthy expected); [|right; reflexivity].
    destruct (toMatchObject m (resp_body response) expected);
      [left; eexists; reflexivity | right; reflexivity].
Qed.

Lemma public_cases m response expectations :
  (exists t, PublicAPI_checkResponse m response expectations = ([], Throws t))
  \/ PublicAPI_checkResponse m response expectations = ([], Returns response).
Proof.
  unfold PublicAPI_checkResponse.
  destruct (checkResponse_cases m response expectations) as [[t ->] | ->].
  - left. eexists. reflexivity.
  - rewrite ?bind_nil, ?bind_ret.
    destruct ((200 <=? TestApi.status response)%Z
              && (TestApi.status response <? 300)%Z); [|right; reflexivity].
    destruct (toSatisfyApiSpec m response);
      [left; eexists; reflexivity | right; reflexivity].
Qed.

Lemma request_log c w m method url opts :
  fst (_request c w m method url opts)
  = fst (_requestRaw w method url opts 0).
Proof.
  unfold _request.
  destruct (_requestRaw w method url opts 0) as [log [response|t]];
    [|reflexivity].
  rewrite ?bind_nil, ?bind_returns. simpl.
  assert (Hcheck :
            (exists t, checkResponse c m response
                         (expectationsOf (afterDefaults opts)) = ([], Throws t))
            \/ checkResponse c m response (expectationsOf (afterDefaults opts))
               = ([], Returns response)).
  { destruct c; [apply checkResponse_cases | apply public_cases]. }
  destruct Hcheck as [[t ->] | ->].
  - simpl. apply app_nil_r.
  - rewrite ?bind_nil, ?bind_ret. simpl. apply app_nil_r.
Qed.

Lemma no_expectations_allDefined opts :
  expectationsOf opts = None ->
  allDefined opts = true /\ expectationsOf (afterDefaults opts) = None.
Proof.
  destruct opts as [o|]; simpl; [|split; reflexivity].
  intros He. unfold allDefined, declaredHeaders. simpl. rewrite He.
  split; reflexivity.
Qed.

(** X20.  A call without expectations, whose request is answered with
    status 200 on the first attempt or after resets (at most three), returns
    the body of that answer; for a [PublicAPI] object, provided the answer
    satisfies the API schema. *)
Theorem request_returns_body c w m method url opts n resp :
  n <= 3 ->
  (forall k, k <= n ->
     exists auth,
       TestApi.getHeaders w k (afterDefaults opts) stacktraceHeader = inr auth) ->
  expectationsOf opts = None ->
  (forall k req, k < n ->
     exists e, transport w k req = inl e /\ isConnectionReset e = true) ->
  (forall req, transport w n req = inr resp) ->
  TestApi.status resp = 200%Z ->
  (c = PublicAPI -> toSatisfyApiSpec m resp = None) ->
  snd (_request c w m method url opts) = Returns (resp_body resp)
  /\ List.length (sent (fst (_request c w m method url opts))) = S n.
Proof.
  intros Hn Hauth Hnone Hreset Hok Hstatus Hschema.
  destruct (no_expectations_allDefined opts Hnone) as [Hdef Hafter].
  destruct (recovers_from w method n resp Hn Hreset Hok n opts 0 url
              Hauth Hdef) as [Hsnd Hlen]; try lia.
  split; [|rewrite request_log; exact Hlen].
  unfold _request.
  destruct (_requestRaw w method url opts 0) as [log r]. simpl in Hsnd.
  subst r. rewrite ?bind_nil, ?bind_returns, Hafter. simpl.
  assert (Hbase : _checkResponse m resp None = ([], Returns resp)).
  { apply checkResponse_passes; [exact Hstatus | discriminate | discriminate]. }
  destruct c; simpl.
  - rewrite Hbase, bind_nil. reflexivity.
  - unfold PublicAPI_checkResponse. rewrite Hbase, bind_nil, Hstatus. simpl.
    rewrite (Hschema eq_refl). rewrite ?bind_nil, ?bind_ret. reflexivity.
Qed.

Lemma request_returns_body_witness :
  let w := world PublicAPI Fixture.config
             (Fixture.resetUntil 2
                (mkResponse 200 [] (Js.Obj [("_id", Js.Str "ta_1")]))) in
  snd (_request PublicAPI w Fixture.matchers GET "/tables" None)
    = Returns (Js.Obj [("_id", Js.Str "ta_1")])
  /\ List.length (sent (fst (_request PublicAPI w Fixture.matchers GET "/tables" None)))
     = 3.
Proof.
  apply (request_returns_body PublicAPI
           (world PublicAPI Fixture.config
              (Fixture.resetUntil 2
                 (mkResponse 200 [] (Js.Obj [("_id", Js.Str "ta_1")]))))
           Fixture.matchers GET "/tables" None 2
           (mkResponse 200 [] (Js.Obj [("_id", Js.Str "ta_1")]))).
  - lia.
  - intros k _. eexists. reflexivity.
  - reflexivity.
  - intros k req Hk. exists Scenario.connReset.
    simpl. unfold Fixture.resetUntil.
    apply Nat.ltb_lt in Hk. rewrite Hk. split; reflexivity.
  - intros req. reflexivity.
  - reflexivity.
  - intros _. reflexivity.
Defined.

(** X21.  The [PublicAPI] check is the [TestAPI] check followed by the
    schema assertion for a status from 200 to 299 only: outside that range
    the two checks agree, and inside it a response that passes the first
    and fails the schema is rejected with the matcher's error. *)
Theorem schema_checked_for_2xx_only m response expectations :
  ((TestApi.status response < 200 \/ 300 <= TestApi.status response)%Z ->
   PublicAPI_checkResponse m response expectations
   = _checkResponse m response expectations)
  /\ (forall failure,
        (200 <= TestApi.status response < 300)%Z ->
        _checkResponse m response expectations = ([], Returns response) ->
        toSatisfyApiSpec m response = Some failure ->
        PublicAPI_checkResponse m response expectations
        = ([], Throws (Rethrown failure))).
Proof.
  unfold PublicAPI_checkResponse. split.
  - intros Hrange.
    destruct (checkResponse_cases m response expectations) as [[t ->] | ->];
      [reflexivity|].
    rewrite ?bind_nil, ?bind_ret.
    assert (Hout : (200 <=? TestApi.status response)%Z
                   && (TestApi.status response <? 300)%Z = false).
    { apply andb_false_iff. destruct Hrange as [H|H].
      - left. apply Z.leb_gt. exact H.
      - right. apply Z.ltb_ge. exact H. }
    rewrite Hout. reflexivity.
  - intros failure [Hlo Hhi] Hbase Hschema. rewrite Hbase, bind_nil.
    apply Z.leb_le in Hlo. apply Z.ltb_lt in Hhi.
    rewrite Hlo, Hhi, Hschema. reflexivity.
Qed.

Lemma schema_checked_for_2xx_only_witness :
  let m := mkMatchers (fun _ => "{}") (fun _ _ => None)
             (fun _ => Some Fixture.enospc) in
  let response := mkResponse 404 [] (Js.Obj [("message", Js.Str "Not found")]) in
  let expectations := Some (mkExpectations (Some 404%Z) None None None) in
  PublicAPI_checkResponse m response expectations
  = _checkResponse m response expectations.
Proof.
  apply (schema_checked_for_2xx_only
           (mkMatchers (fun _ => "{}") (fun _ _ => None)
              (fun _ => Some Fixture.enospc))
           (mkResponse 404 [] (Js.Obj [("message", Js.Str "Not found")]))
           (Some (mkExpectations (Some 404%Z) None None None))).
  right. simpl. lia.
Defined.

Lemma assoc_setProp_other {A} k k0 (v0 : A) l :
  k0 <> k -> Js.assoc k (setProp k0 v0 l) = Js.assoc k l.
Proof.
  intros Hne. induction l as [|[k' v'] l IH]; simpl.
  - destruct (String.eqb k0 k) eqn:E; [|reflexivity].
    apply String.eqb_eq in E. contradiction.
  - destruct (String.eqb k' k0) eqn:E0; simpl.
    + apply String.eqb_eq in E0. subst k'.
      destruct (String.eqb k0 k) eqn:E; [|reflexivity].
      apply String.eqb_eq in E. contradiction.
    + destruct (String.eqb k' k); [reflexivity | exact IH].
Qed.

Lemma assoc_not_in {A} k (l : list (string * A)) :
  ~ In k (map fst l) -> Js.assoc k l = None.
Proof.
  induction l as [|[k' v'] l IH]; simpl; [reflexivity|].
  intros H. destruct (String.eqb k' k) eqn:E.
  - apply String.eqb_eq in E. tauto.
  - apply IH. tauto.
Qed.

Lemma assoc_in {A} k (v : A) l :
  NoDup (map fst l) -> In (k, v) l -> Js.assoc k l = Some v.
Proof.
  induction l as [|[k' v'] l IH]; simpl; [tauto|].
  intros Hnd [H|H]; inversion Hnd as [|? ? Hnotin Hnd']; subst.
  - injection H as -> ->. rewrite String.eqb_refl. reflexivity.
  - destruct (String.eqb k' k) eqn:E.
    + apply String.eqb_eq in E. subst k'. exfalso. apply Hnotin.
      apply (in_map fst) in H. exact H.
    + apply IH; assumption.
Qed.

(** In [{ ...base, ...more }] a key of [more] has the value [more] gives
    it, and any other key the value of [base]. *)
Lemma spread_lookup more : forall base k,
  NoDup (map fst more) ->
  Js.assoc k (spread base (Some more))
  = match Js.assoc k more with
    | Some v => Some v
    | None => Js.assoc k base
    end.
Proof.
  unfold spread.
  induction more as [|[k0 v0] more IH]; intros base k Hnd; [reflexivity|].
  inversion Hnd as [|? ? Hnotin Hnd']; subst. cbn [fold_left fst snd].
  rewrite (IH _ k Hnd'). simpl Js.assoc at 3.
  destruct (String.eqb k0 k) eqn:E.
  - apply String.eqb_eq in E. subst k0.
    rewrite (assoc_not_in k more Hnotin). apply assoc_setProp.
  - destruct (Js.assoc k more); [reflexivity|].
    apply assoc_setProp_other. apply String.eqb_neq. exact E.
Qed.

(** X22.  In the headers of a [PublicAPI] object every entry of [extras]
    is present with the value [extras] gives it, and the API key header
    carries the freshly generated key unless [extras] names that header. *)
Theorem public_headers cfg attempt opts extras headers :
  NoDup (map fst extras) ->
  getHeaders PublicAPI cfg attempt opts (Some extras) = inr headers ->
  (forall k v, In (k, v) extras -> Js.assoc k headers = Some v)
  /\ (Js.assoc "x-budibase-api-key" extras = None ->
      exists apiKey,
        generateApiKey cfg attempt = inr apiKey
        /\ Js.assoc "x-budibase-api-key" headers = Some (One apiKey)).
Proof.
  intros Hnd. unfold getHeaders.
  destruct (generateApiKey cfg attempt) as [e|apiKey]; [discriminate|].
  destruct (tenantHost cfg attempt) as [e|host]; [discriminate|].
  destruct (getAppId cfg attempt) as [e|appId]; [discriminate|].
  intros [= <-].
  pose proof (fun k =>
                spread_lookup extras
                  [ ("Accept", One "application/json"); ("Host", One host);
                    ("x-budibase-api-key", One apiKey);
                    ("x-budibase-app-id", One appId) ] k Hnd) as Hlookup.
  unfold spread in Hlookup. split.
  - intros k v Hin. rewrite Hlookup.
    rewrite (assoc_in k v extras Hnd Hin). reflexivity.
  - intros Hnone. exists apiKey. split; [reflexivity|].
    rewrite Hlookup, Hnone. reflexivity.
Qed.

Lemma public_headers_witness :
  let headers :=
    [ ("Accept", One "application/json"); ("Host", One "tenant.example");
      ("x-budibase-api-key", One "key-0"); ("x-budibase-app-id", One "app_1");
      ("x-budibase-include-stacktrace", One "true") ] in
  (forall k v, In (k, v) stacktraceHeader -> Js.assoc k headers = Some v)
  /\ (Js.assoc "x-budibase-api-key" stacktraceHeader = None ->
      exists apiKey,
        generateApiKey Fixture.config 0 = inr apiKey
        /\ Js.assoc "x-budibase-api-key" headers = Some (One apiKey)).
Proof.
  apply (public_headers Fixture.config 0 None stacktraceHeader).
  - repeat constructor. simpl. tauto.
  - reflexivity.
Defined.

Lemma request_sent_shape c w m method url opts req :
  In req (sent (fst (_request c w m method (prefix c ++ url) opts))) ->
  req_method req = method
  /\ exists rest, req_url req = prefix c ++ url ++ rest.
Proof.
  rewrite request_log. intros Hin. split.
  - destruct (sent_requestOf w method _ opts 0 req Hin) as (u & auth & ->).
    reflexivity.
  - destruct (url_extends w method 3 opts 0 (prefix c ++ url)
                ltac:(lia) req Hin) as [rest Hrest].
    exists rest. rewrite Hrest. apply append_assoc.
Qed.

(** X23.  Every request sent through [_get], [_post], [_put], [_patch] or
    [_delete] has the method of the verb and a URL that starts with the
    prefix of the class ([/api/public/v1] for [PublicAPI], nothing for
    [TestAPI]) followed by the URL the caller gave. *)
Theorem verbs_use_method_and_prefix c w m url opts req :
  (In req (sent (fst (_get c w m url opts))) ->
   req_method req = GET /\ exists rest, req_url req = prefix c ++ url ++ rest)
  /\ (In req (sent (fst (_post c w m url opts))) ->
      req_method req = POST /\ exists rest, req_url req = prefix c ++ url ++ rest)
  /\ (In req (sent (fst (_put c w m url opts))) ->
      req_method req = PUT /\ exists rest, req_url req = prefix c ++ url ++ rest)
  /\ (In req (sent (fst (_patch c w m url opts))) ->
      req_method req = PATCH /\ exists rest, req_url req = prefix c ++ url ++ rest)
  /\ (In req (sent (fst (_delete c w m url opts))) ->
      req_method req = DELETE /\ exists rest, req_url req = prefix c ++ url ++ rest).
Proof.
  unfold _get, _post, _put, _patch, _delete.
  split; [|split; [|split; [|split]]]; intros Hin.
  - exact (request_sent_shape c w m GET url opts req Hin).
  - exact (request_sent_shape c w m POST url opts req Hin).
  - exact (request_sent_shape c w m PUT url opts req Hin).
  - exact (request_sent_shape c w m PATCH url opts req Hin).
  - exact (request_sent_shape c w m DELETE url opts req Hin).
Qed.

Lemma verbs_use_method_and_prefix_witness :
  let w := world PublicAPI Fixture.config (Fixture.respond 200 [] (Js.Obj [])) in
  let req := requestOf DELETE "/api/public/v1/tables/ta_1" None
               [ ("Accept", One "application/json"); ("Host", One "tenant.example");
                 ("x-budibase-api-key", One "key-0");
                 ("x-budibase-app-id", One "app_1");
                 ("x-budibase-include-stacktrace", One "true") ] in
  req_method req = DELETE
  /\ exists rest, req_url req = prefix PublicAPI ++ "/tables/ta_1" ++ rest.
Proof.
  apply (verbs_use_method_and_prefix PublicAPI
           (world PublicAPI Fixture.config (Fixture.respond 200 [] (Js.Obj [])))
           Fixture.matchers "/tables/ta_1" None).
  simpl. left. reflexivity.
Defined.

(** X24.  The check of either class never changes the response and never
    calls the transport or [getHeaders]: what it returns is the response it
    was given, and its effect log is empty. *)
Theorem check_is_a_filter c m response expectations checked :
  snd (checkResponse c m response expectations) = Returns checked ->
  checked = response
  /\ fst (checkResponse c m response expectations) = [].
Proof.
  assert (Hcases :
            (exists t, checkResponse c m response expectations = ([], Throws t))
            \/ checkResponse c m response expectations = ([], Returns response)).
  { destruct c; [apply checkResponse_cases | apply public_cases]. }
  destruct Hcases as [[t ->] | ->]; simpl; [discriminate|].
  intros [= <-]. split; reflexivity.
Qed.

Lemma check_is_a_filter_witness :
  let response := mkResponse 200 [("content-type", "application/json")]
                    (Js.Obj [("_id", Js.Str "ta_1")]) in
  response = response
  /\ fst (checkResponse PublicAPI Fixture.matchers response None) = [].
Proof.
  apply (check_is_a_filter PublicAPI Fixture.matchers
           (mkResponse 200 [("content-type", "application/json")]
              (Js.Obj [("_id", Js.Str "ta_1")]))
           None).
  reflexivity.
Defined.

End TestApiClientMore.
